(** * The job lifecycle of the serverless image pipeline

    A shallow embedding of the three Lambda handlers of the repository:

    - [Receiver.handler]  (handlers/reciver_lambda.js): validates a submission,
      writes the [pending] record and enqueues the work item;
    - [Worker.handler]    (handlers/responder_lambda.js, second part): consumes
      work items, scrapes, synthesises, uploads and records the outcome;
    - [Responder.handler] (handlers/responder_lambda.js, first part): the status
      read with its presigned-link renewal.

    The handlers are [async] functions that talk to DynamoDB, SQS, S3, the
    scraped site and the image model.  They are embedded in a state and
    exception monad over a [World] holding the table, the queue, the bucket and
    the log of calls issued.  What the outside world answers during one
    invocation (clock readings, generated identifiers, rejected promises) is
    given by a [Script] record with one field per call site; every call site
    runs at most once per invocation, so a script covers every behaviour of the
    collaborators.

    Conventions.  Bodies arrive parsed: the receiver is given the outcome of
    [JSON.parse(event.body)], the worker, for each record, the outcome of
    [const { jobId, productUrl } = JSON.parse(record.body)], which is the
    error thrown for a body that is not JSON or is [null], or the two
    values, [jobId] being a string as the key of the table is.
    A response [body] is the object handed to [JSON.stringify].  A
    call that rejects leaves the table, the queue and the bucket as they were.
    The page scrape and the image model are collaborators whose answers are
    scripted; the prompt text, which only feeds the image model, is left out
    of the handler and treated on its own ([Page]).  Between invocations
    records and objects expire and messages leave the queue ([expires]). *)

From stdpp Require Import gmap strings list fin_maps.
From Stdlib Require Import ZArith NArith String Ascii.
From Stdlib.Strings Require Import Byte.

Set Warnings "-register-all".
Open Scope Z_scope.

(** ** JavaScript values *)

(** JSON-shaped values, as they travel through request bodies, queue messages
    and table attributes.  Numbers in this program are integer millisecond or
    second counts, far below 2^53, hence [Z].  [undefined] is the [None] of
    [option Value]. *)
Inductive Value : Type :=
| VNull
| VBool (b : bool)
| VNum (n : Z)
| VStr (s : string)
| VArr (l : list Value)
| VObj (l : list (string * Value)).

(** ToBoolean. *)
Definition truthy (v : option Value) : bool :=
  match v with
  | None => false
  | Some VNull => false
  | Some (VBool b) => b
  | Some (VNum n) => negb (n =? 0)
  | Some (VStr s) => negb (String.eqb s "")
  | Some (VArr _) => true
  | Some (VObj _) => true
  end.

(** [a || b] where [b] is a defined value. *)
Definition js_or (a : option Value) (b : Value) : Value :=
  match a with
  | Some v => if truthy a then v else b
  | None => b
  end.

(** [v === "s"]. *)
Definition strict_eq_str (v : option Value) (s : string) : bool :=
  match v with
  | Some (VStr t) => String.eqb t s
  | _ => false
  end.

(** An object as it is serialised by [JSON.stringify]: a property whose value
    is [undefined] is left out. *)
Abbreviation Object := (gmap string Value).

Definition set_prop (k : string) (v : option Value) (o : Object) : Object :=
  match v with
  | Some x => <[k := x]> o
  | None => delete k o
  end.

(** The outcome of evaluating an expression or awaiting a promise: a value, or
    a thrown error, represented by its [message]. *)
Inductive Outcome (A : Type) : Type :=
| Ok (a : A)
| Throw (message : string).
Arguments Ok {A} a.
Arguments Throw {A} message.

Fixpoint assoc (k : string) (l : list (string * Value)) : option Value :=
  match l with
  | [] => None
  | (k', v) :: r => if String.eqb k k' then Some v else assoc k r
  end.

(** [const { k } = v] for a value [v] produced by [JSON.parse]: destructuring
    [null] throws a TypeError (the text is V8's), a primitive or an array has
    no such property. *)
Definition destructure (v : Value) (k : string) : Outcome (option Value) :=
  match v with
  | VNull =>
      Throw ("Cannot destructure property '" +:+ k +:+ "' of 'body' as it is null.")
  | VObj l => Ok (assoc k l)
  | _ => Ok None
  end.

(** ** The world outside the handlers *)

(** A table item is an attribute map. *)
Abbreviation Item := (gmap string Value).

(** The body of a queue message, [{ jobId, productUrl }]. *)
Record Message : Type := {
  msg_jobId : string;
  msg_productUrl : option Value
}.

Record S3Object : Type := {
  Body : list byte;
  ContentType : string;
  Metadata : list (string * string)
}.

(** Calls issued to the collaborators, in the order they are issued. *)
Inductive Event : Type :=
| PutItem (item : Item)
| UpdateItem (key : string) (sets : list (string * Value))
| GetItem (key : string)
| SendMessage (m : Message)
| HttpGet (url : option Value)
| CreateResponse
| PutObject (key : string) (o : S3Object)
| GetSignedUrl (key : option Value) (expiresIn : Z).

Record World : Type := {
  table : gmap string Item;
  queue : list Message;
  bucket : gmap string S3Object;
  trace : list Event
}.

Definition log (e : Event) (w : World) : World :=
  {| table := table w; queue := queue w; bucket := bucket w;
     trace := trace w ++ [e] |}.

Definition with_table (f : gmap string Item → gmap string Item) (w : World) : World :=
  {| table := f (table w); queue := queue w; bucket := bucket w;
     trace := trace w |}.

Definition with_queue (f : list Message → list Message) (w : World) : World :=
  {| table := table w; queue := f (queue w); bucket := bucket w;
     trace := trace w |}.

Definition with_bucket (f : gmap string S3Object → gmap string S3Object) (w : World) : World :=
  {| table := table w; queue := queue w; bucket := f (bucket w);
     trace := trace w |}.

(** ** The monad of handler code *)

Definition M (A : Type) : Type := World → Outcome A * World.

Definition ret {A} (a : A) : M A := λ w, (Ok a, w).

Definition throw {A} (message : string) : M A := λ w, (Throw message, w).

Definition bind {A B} (m : M A) (k : A → M B) : M B :=
  λ w, match m w with
       | (Ok a, w') => k a w'
       | (Throw e, w') => (Throw e, w')
       end.

(** [try { m } catch (err) { h(err.message) }]. *)
Definition try_catch {A} (m : M A) (h : string → M A) : M A :=
  λ w, match m w with
       | (Ok a, w') => (Ok a, w')
       | (Throw e, w') => h e w'
       end.

Definition lift {A} (o : Outcome A) : M A := λ w, (o, w).

Notation "'let!' x ':=' m 'in' k" := (bind m (λ x, k))
  (at level 10, x name, m at level 100, k at level 200).
Notation "m ';;' k" := (bind m (λ _, k))
  (at level 100, k at level 200, right associativity).

(** An awaited call that changes the world: it is logged when issued and either
    rejects with [fault], leaving the world as it was, or takes [effect]. *)
Definition call (e : Event) (fault : option string) (effect : World → World) : M unit :=
  λ w, match fault with
       | Some message => (Throw message, log e w)
       | None => (Ok tt, effect (log e w))
       end.

(** An awaited call whose answer comes from the script. *)
Definition request {A} (e : Event) (answer : Outcome A) : M A :=
  λ w, (answer, log e w).

(** *** DynamoDB, through the document client *)

(** [PutCommand]: the item replaces whatever is stored under its key. *)
Definition PutCommand (key : string) (item : Item) (fault : option string) : M unit :=
  call (PutItem item) fault (with_table (λ t, <[key := item]> t)).

(** [SET #a = :a, ...] applied to an item, left to right. *)
Definition apply_sets (item : Item) (sets : list (string * Value)) : Item :=
  foldl (λ it kv, <[kv.1 := kv.2]> it) item sets.

(** [UpdateCommand] with a [SET] expression and no condition expression:
    UpdateItem edits the attributes of the stored item, or adds a new item
    holding the key and the attributes set if none is stored. *)
Definition UpdateCommand (key : string) (sets : list (string * Value))
    (fault : option string) : M unit :=
  call (UpdateItem key sets) fault
    (with_table (λ t,
       <[key := apply_sets (default {["jobId" := VStr key]} (t !! key)) sets]> t)).

(** [GetCommand]: [result.Item]. *)
Definition GetCommand (key : string) (fault : option string) : M (option Item) :=
  λ w, match fault with
       | Some message => (Throw message, log (GetItem key) w)
       | None => (Ok (table w !! key), log (GetItem key) w)
       end.

(** *** SQS and S3 *)

Definition SendMessageCommand (m : Message) (fault : option string) : M unit :=
  call (SendMessage m) fault (with_queue (λ q, q ++ [m])).

Definition PutObjectCommand (key : string) (o : S3Object) (fault : option string) : M unit :=
  call (PutObject key o) fault (with_bucket (λ b, <[key := o]> b)).

Definition getSignedUrl (key : option Value) (expiresIn : Z) (answer : Outcome string) : M string :=
  request (GetSignedUrl key expiresIn) answer.

(** ** HTTP responses *)

(** [headers] is ["Content-Type": "application/json"] in every response and is
    left out; [body] is the object handed to [JSON.stringify]. *)
Record Response : Type := {
  statusCode : Z;
  body : Object
}.

(** The answers that do not depend on a record. *)

Definition bad_request (message : string) : Response :=
  {| statusCode := 400; body := <["message" := VStr message]> ∅ |}.

Definition not_found : Response :=
  {| statusCode := 404; body := <["message" := VStr "Job not found"]> ∅ |}.

Definition internal_server_error (message : string) : Response :=
  {| statusCode := 500;
     body := <["error" := VStr message]>
               (<["message" := VStr "Internal server error"]> ∅) |}.

Definition accepted (jobId : string) : Response :=
  {| statusCode := 202;
     body := <["statusUrl" := VStr ("/api/status/" +:+ jobId)]>
               (<["message" := VStr "Image generation started"]>
                  (<["jobId" := VStr jobId]> ∅)) |}.

(** ** Receiver Lambda *)

Module Receiver.

Record Script : Type := {
  randomUUID : string;
  now_createdAt : Z;
  now_ttl : Z;
  put_fault : option string;
  send_fault : option string
}.

(** [parsed] is [JSON.parse(event.body)]. *)
Definition handler (parsed : Outcome Value) (sc : Script) : M Response :=
  try_catch
    (let! body := lift parsed in
     let! productUrl := lift (destructure body "productUrl") in
     if negb (truthy productUrl) then
       ret (bad_request "Missing productUrl field")
     else
       let jobId := randomUUID sc in
       PutCommand jobId
         (set_prop "productUrl" productUrl
            (<["ttl" := VNum (now_ttl sc / 1000 + 86400)]>
               (<["createdAt" := VNum (now_createdAt sc)]>
                  (<["status" := VStr "pending"]>
                     (<["jobId" := VStr jobId]> ∅)))))
         (put_fault sc) ;;
       SendMessageCommand
         {| msg_jobId := jobId; msg_productUrl := productUrl |}
         (send_fault sc) ;;
       ret (accepted jobId))
    (λ err, ret (internal_server_error err)).

End Receiver.

(** ** Worker Lambda *)

(** *** Strings as UTF-16 code units

    [sanitizeMetadata] works character by character; it is modelled on the
    code units of the string, which may exceed one byte. *)

Definition units_of_string (s : string) : list N :=
  map N_of_ascii (list_ascii_of_string s).

Definition string_of_units (l : list N) : string :=
  string_of_list_ascii (map ascii_of_N l).

(** WhiteSpace and LineTerminator code units, as [String.prototype.trim]
    strips them. *)
Definition is_white_space (c : N) : bool :=
  ((9 <=? c) && (c <=? 13) || (c =? 32) || (c =? 160) || (c =? 5760)
   || (8192 <=? c) && (c <=? 8202) || (c =? 8232) || (c =? 8233)
   || (c =? 8239) || (c =? 8287) || (c =? 12288) || (c =? 65279))%N.

Fixpoint trimStart (l : list N) : list N :=
  match l with
  | [] => []
  | c :: r => if is_white_space c then trimStart r else l
  end.

Definition trimEnd (l : list N) : list N := rev (trimStart (rev l)).

Definition trim (l : list N) : list N := trimEnd (trimStart l).

(** The character class [[\r\n\t]]. *)
Definition is_cr_lf_tab (c : N) : bool := ((c =? 13) || (c =? 10) || (c =? 9))%N.

(** The complement of the negated class [[^\x20-\x7E]]. *)
Definition is_printable_ascii (c : N) : bool := ((32 <=? c) && (c <=? 126))%N.

(** The chain [replace . replace . substring(0, 200) . trim] of
    [sanitizeMetadata], on code units. *)
Definition sanitize_units (value : list N) : list N :=
  trim
    (take 200
       (List.filter is_printable_ascii
          (map (λ c, if is_cr_lf_tab c then 32%N else c) value))).

(** [sanitizeMetadata]: a falsy value gives [''], a string is cleaned, and any
    other truthy value has no [replace] method. *)
Definition sanitizeMetadata (value : option Value) : Outcome string :=
  if negb (truthy value) then Ok ""
  else match value with
       | Some (VStr s) => Ok (string_of_units (sanitize_units (units_of_string s)))
       | _ => Throw "value.replace is not a function"
       end.

(** *** Buffers *)

Definition hex_digit (n : N) : ascii :=
  match n with
  | 0 => "0" | 1 => "1" | 2 => "2" | 3 => "3" | 4 => "4" | 5 => "5"
  | 6 => "6" | 7 => "7" | 8 => "8" | 9 => "9" | 10 => "a" | 11 => "b"
  | 12 => "c" | 13 => "d" | 14 => "e" | _ => "f"
  end%N%char.

Definition hex_of_byte (b : byte) : string :=
  String (hex_digit (Byte.to_N b / 16)) (String (hex_digit (Byte.to_N b mod 16)) "").

(** [buf.toString('hex', start, end)]. *)
Definition toString_hex (buf : list byte) (start end_ : nat) : string :=
  foldr (λ b s, hex_of_byte b +:+ s) "" (take (end_ - start) (drop start buf)).

(** [s.startsWith(p)]. *)
Definition startsWith (s p : string) : bool := String.prefix p s.

Module Worker.

Definition PRESIGNED_URL_EXPIRY : Z := 3600.

(** What [scrapeProductPage] returns. *)
Record PageContent : Type := {
  url : option Value;
  productName : string;
  title : string;
  description : string;
  price : string;
  originalPrice : string;
  offer : string;
  phone : string;
  location : string;
  bodyText : string
}.

(** An element of [response.output]. *)
Record OutputItem : Type := {
  type : string;
  result : option string
}.

Record Script : Type := {
  upd_processing : option string;
  scrape : Outcome PageContent;
  synth : Outcome (list OutputItem);
  put_object : option string;
  presign : Outcome string;
  now_completedAt : Z;
  now_expiresAt : Z;
  upd_completed : option string;
  now_failedAt : Z;
  upd_failed : option string
}.

Definition updateJobStatus (jobId status : string)
    (additionalData : list (string * Value)) (fault : option string) : M unit :=
  UpdateCommand jobId (("status", VStr status) :: additionalData) fault.

(** [scrapeProductPage]: the page fetch and the selectors are the scrape
    collaborator; its answer, or the error it throws, comes from the script. *)
Definition scrapeProductPage (productUrl : option Value)
    (answer : Outcome PageContent) : M PageContent :=
  request (HttpGet productUrl) answer.

(** [client.responses.create]; the prompt built from the page content only
    feeds this request. *)
Definition responses_create (answer : Outcome (list OutputItem)) : M (list OutputItem) :=
  request CreateResponse answer.

(** [output.filter(..).map(o => o.result).shift()]. *)
Definition first_image (output : list OutputItem) : option string :=
  match map result
          (List.filter (λ o, String.eqb (type o) "image_generation_call") output) with
  | [] => None
  | r :: _ => r
  end.

(** [s || d] on strings. *)
Definition str_or (s d : string) : string :=
  if String.eqb s "" then d else s.

(** The format detected from the signature: [(extension, contentType)]. *)
Definition detect_format (fileSignature : string) : string * string :=
  if startsWith fileSignature "ffd8" then ("jpg", "image/jpeg")
  else if startsWith fileSignature "8950" then ("png", "image/png")
  else ("jpg", "image/jpeg").

Section Process.

(** [Buffer.from(s, "base64")]. *)
Variable Buffer_from_base64 : string → list byte.

(** The body of the [try] block for one record. *)
Definition pipeline (jobId : string) (productUrl : option Value) (sc : Script) : M unit :=
  updateJobStatus jobId "processing" [] (upd_processing sc) ;;
  let! pageContent := scrapeProductPage productUrl (scrape sc) in
  let! output := responses_create (synth sc) in
  match first_image output with
  | None => throw "No image returned from AI"
  | Some imageData =>
    if String.eqb imageData "" then throw "No image returned from AI"
    else
      let imageBuffer := Buffer_from_base64 imageData in
      let fileSignature := toString_hex imageBuffer 0 4 in
      let extension := (detect_format fileSignature).1 in
      let contentType := (detect_format fileSignature).2 in
      let fileName := jobId +:+ "." +:+ extension in
      let! m_productname := lift (sanitizeMetadata (Some (VStr (productName pageContent)))) in
      let! m_price := lift (sanitizeMetadata (Some (VStr (price pageContent)))) in
      let! m_producturl := lift (sanitizeMetadata productUrl) in
      PutObjectCommand fileName
        {| Body := imageBuffer;
           ContentType := contentType;
           Metadata := [("productname", m_productname); ("price", m_price);
                        ("producturl", m_producturl)] |}
        (put_object sc) ;;
      let! presignedUrl :=
        getSignedUrl (Some (VStr fileName)) PRESIGNED_URL_EXPIRY (presign sc) in
      updateJobStatus jobId "completed"
        [("imageUrl", VStr presignedUrl);
         ("fileName", VStr fileName);
         ("productName", VStr (str_or (productName pageContent) ""));
         ("price", VStr (str_or (price pageContent) ""));
         ("offer", VStr (str_or (offer pageContent) ""));
         ("contentType", VStr contentType);
         ("completedAt", VNum (now_completedAt sc));
         ("expiresAt", VNum (now_expiresAt sc + PRESIGNED_URL_EXPIRY * 1000))]
        (upd_completed sc)
  end.

(** The [try] statement of one iteration of the loop over [event.Records],
    for the [jobId] and [productUrl] that the line before it took from the
    record body. *)
Definition process_record (m : Message) (sc : Script) : M unit :=
  try_catch
    (pipeline (msg_jobId m) (msg_productUrl m) sc)
    (λ err,
       updateJobStatus (msg_jobId m) "failed"
         [("error", VStr err); ("failedAt", VNum (now_failedAt sc))]
         (upd_failed sc)).

(** One iteration of the loop.  [parsed] is the outcome of
    [const { jobId, productUrl } = JSON.parse(record.body)]; the statement
    stands before the [try], so what it throws (a SyntaxError for a body that
    is not JSON, a TypeError for the body [null]) is not caught: no call is
    issued for the record and the error leaves the handler. *)
Definition handle_record (parsed : Outcome Message) (sc : Script) : M unit :=
  let! m := lift parsed in
  process_record m sc.

(** The handler: the records of the batch in order, each with the script of
    the world's answers while it is processed.  An error that escapes one
    iteration ends the invocation. *)
Fixpoint handler (records : list (Outcome Message * Script)) : M unit :=
  match records with
  | [] => ret tt
  | (parsed, sc) :: rest => handle_record parsed sc ;; handler rest
  end.

End Process.

End Worker.

(** ** Responder Lambda *)

Module Responder.

Definition PRESIGNED_URL_EXPIRY : Z := 3600.

Record Script : Type := {
  get_fault : option string;
  now : Z;
  presign : Outcome string
}.

Section Handler.

(** [v < n] for a stored value [v] and a number [n]; JavaScript coerces [v]
    to a number first. *)
Variable js_lt : Value → Z → bool.

(** [jobId] is [event.pathParameters?.jobId]. *)
Definition handler (jobId : option string) (sc : Script) : M Response :=
  try_catch
    (match jobId with
     | None => ret (bad_request "Missing jobId")
     | Some jobId =>
       if String.eqb jobId "" then ret (bad_request "Missing jobId")
       else
         let! result := GetCommand jobId (get_fault sc) in
         match result with
         | None => ret not_found
         | Some job =>
             let response :=
               set_prop "createdAt" (job !! "createdAt")
                 (set_prop "status" (job !! "status")
                    (set_prop "jobId" (job !! "jobId") ∅)) in
             let! response :=
               if strict_eq_str (job !! "status") "completed" then
                 let urlExpiresAt := js_or (job !! "expiresAt") (VNum 0) in
                 let! response :=
                   if negb (truthy (job !! "imageUrl"))
                      || js_lt urlExpiresAt (now sc + 300000) then
                     let fileName := job !! "fileName" in
                     if truthy fileName then
                       let! newPresignedUrl :=
                         getSignedUrl fileName PRESIGNED_URL_EXPIRY (presign sc) in
                       ret (<["urlExpiresAt" :=
                                VNum (now sc + PRESIGNED_URL_EXPIRY * 1000)]>
                              (<["imageUrl" := VStr newPresignedUrl]> response))
                     else
                       ret (<["urlExpiresAt" := urlExpiresAt]>
                              (set_prop "imageUrl" (job !! "imageUrl") response))
                   else
                     ret (<["urlExpiresAt" := urlExpiresAt]>
                            (set_prop "imageUrl" (job !! "imageUrl") response)) in
                 ret (set_prop "fileName" (job !! "fileName")
                        (set_prop "completedAt" (job !! "completedAt")
                           (set_prop "contentType" (job !! "contentType")
                              (set_prop "overlayText" (job !! "overlayText") response))))
               else if strict_eq_str (job !! "status") "failed" then
                 ret (set_prop "failedAt" (job !! "failedAt")
                        (set_prop "error" (job !! "error") response))
               else if strict_eq_str (job !! "status") "processing" then
                 ret (<["message" := VStr "Image generation in progress"]> response)
               else ret response in
             ret {| statusCode := 200; body := response |}
         end
     end)
    (λ err, ret (internal_server_error err)).

End Handler.

End Responder.

(** * Observations *)

(** An attribute of the record stored for a job. *)
Definition attr (w : World) (jobId k : string) : option Value :=
  table w !! jobId ≫= λ item : Item, item !! k.

Definition status_of (w : World) (jobId : string) : option Value :=
  attr w jobId "status".

(** The record written for an accepted submission. *)
Definition pending_item (jobId : string) (productUrl : option Value)
    (sc : Receiver.Script) : Item :=
  set_prop "productUrl" productUrl
    (<["ttl" := VNum (Receiver.now_ttl sc / 1000 + 86400)]>
       (<["createdAt" := VNum (Receiver.now_createdAt sc)]>
          (<["status" := VStr "pending"]> (<["jobId" := VStr jobId]> ∅)))).

(** The response to a status read of a completed job, given the link and the
    expiry the renewal protocol settled on. *)
Definition completed_response (job : Item) (imageUrl : option Value)
    (urlExpiresAt : Value) : Response :=
  {| statusCode := 200;
     body :=
       set_prop "fileName" (job !! "fileName")
         (set_prop "completedAt" (job !! "completedAt")
            (set_prop "contentType" (job !! "contentType")
               (set_prop "overlayText" (job !! "overlayText")
                  (<["urlExpiresAt" := urlExpiresAt]>
                     (set_prop "imageUrl" imageUrl
                        (set_prop "createdAt" (job !! "createdAt")
                           (set_prop "status" (job !! "status")
                              (set_prop "jobId" (job !! "jobId") ∅)))))))) |}.


(** A submission whose [productUrl] is missing or the empty string: a body
    that is not JSON or is not an object submits none. *)
Definition lacks_productUrl (parsed : Outcome Value) : Prop :=
  match parsed with
  | Ok (VObj l) =>
      assoc "productUrl" l = None ∨ assoc "productUrl" l = Some (VStr "")
  | _ => True
  end.

(** Calls that only read: the point get on the table and the signing of a
    link. *)
Definition is_read (e : Event) : Prop :=
  match e with
  | GetItem _ => True
  | GetSignedUrl _ _ => True
  | _ => False
  end.


(** The scrape, synthesis or upload step of an invocation throws [e]: the
    steps before it went through, and this one raises the error. *)
Inductive step_throws (m : Message) (sc : Worker.Script) : string → Prop :=
| scrape_throws e :
    Worker.upd_processing sc = None →
    Worker.scrape sc = Throw e →
    step_throws m sc e
| synthesis_throws pc e :
    Worker.upd_processing sc = None →
    Worker.scrape sc = Ok pc →
    Worker.synth sc = Throw e →
    step_throws m sc e
| synthesis_without_image pc output :
    Worker.upd_processing sc = None →
    Worker.scrape sc = Ok pc →
    Worker.synth sc = Ok output →
    Worker.first_image output = None ∨ Worker.first_image output = Some "" →
    step_throws m sc "No image returned from AI"
| upload_throws pc output imageData producturl e :
    Worker.upd_processing sc = None →
    Worker.scrape sc = Ok pc →
    Worker.synth sc = Ok output →
    Worker.first_image output = Some imageData →
    imageData ≠ "" →
    sanitizeMetadata (msg_productUrl m) = Ok producturl →
    Worker.put_object sc = Some e →
    step_throws m sc e.

(** The format named by the leading bytes, in the words of the
    specification: [FFD8] is JPEG, [8950] is PNG, anything else JPEG. *)
Definition leading_format (buf : list byte) : string * string :=
  match buf with
  | xff :: xd8 :: _ => ("jpg", "image/jpeg")
  | x89 :: x50 :: _ => ("png", "image/png")
  | _ => ("jpg", "image/jpeg")
  end.

(** A code unit that object-store metadata accepts: printable ASCII, which
    leaves out the control characters (below 32, and 127) and everything
    from 128 up. *)
Definition printable (c : N) : Prop := (32 ≤ c ≤ 126)%N.

(** The stored link of a completed job is due for renewal at [now]: it is
    absent, or its stored expiry is less than five minutes away, or no expiry
    is stored (which counts as expiry 0). *)
Definition stale (job : Item) (now : Z) : Prop :=
  truthy (job !! "imageUrl") = false ∨
  (∃ e, job !! "expiresAt" = Some (VNum e) ∧ e < now + 300000) ∨
  (truthy (job !! "expiresAt") = false ∧ 0 < now + 300000).

(** ** The system as a whole *)

(** The world together with the job ids that came into play: the id that
    [randomUUID] holds for each Create invocation and the ids carried by the
    work items given to Process. *)
Record System : Type := {
  world : World;
  known : gset string
}.

(** The job ids carried by the records of a batch. *)
Definition carried (records : list (Outcome Message * Worker.Script)) : list string :=
  omap (λ r : Outcome Message * Worker.Script,
          match r.1 with
          | Ok m => Some (msg_jobId m)
          | Throw _ => None
          end) records.

(** What the infrastructure does between invocations, as the receiver sets it
    up ([ttl], 24 hours) and the README describes it (images deleted after 7
    days, messages retained 4 days and consumed by the worker's trigger).
    Time is not represented: a record that carries a numeric [ttl] may expire
    at any moment, and so may an object; a message may leave the queue at any
    moment, delivered or dropped. *)
Inductive expires : World → World → Prop :=
| record_expires j item ttl w :
    table w !! j = Some item →
    item !! "ttl" = Some (VNum ttl) →
    expires w (with_table (delete j) w)
| object_expires key w :
    expires w (with_bucket (delete key) w)
| message_leaves (i : nat) w :
    expires w (with_queue (delete i) w).

Definition initial : System :=
  {| world := {| table := ∅; queue := []; bucket := ∅; trace := [] |};
     known := ∅ |}.

Definition after_create (parsed : Outcome Value) (sc : Receiver.Script)
    (s : System) : System :=
  {| world := (Receiver.handler parsed sc (world s)).2;
     known := {[Receiver.randomUUID sc]} ∪ known s |}.

Definition after_process (Buffer_from_base64 : string → list byte)
    (records : list (Outcome Message * Worker.Script)) (s : System) : System :=
  {| world := (Worker.handler Buffer_from_base64 records (world s)).2;
     known := list_to_set (carried records) ∪ known s |}.

Definition after_status (js_lt : Value → Z → bool) (jobId : option string)
    (sc : Responder.Script) (s : System) : System :=
  {| world := (Responder.handler js_lt jobId sc (world s)).2;
     known := known s |}.

(** One invocation of one of the three handlers, on any input and with any
    answers from the collaborators, or one expiry. *)
Inductive step (Buffer_from_base64 : string → list byte) (js_lt : Value → Z → bool) :
    System → System → Prop :=
| step_create parsed sc s :
    step Buffer_from_base64 js_lt s (after_create parsed sc s)
| step_process records s :
    step Buffer_from_base64 js_lt s (after_process Buffer_from_base64 records s)
| step_status jobId sc s :
    step Buffer_from_base64 js_lt s (after_status js_lt jobId sc s)
| step_expiry s w' :
    expires (world s) w' →
    step Buffer_from_base64 js_lt s {| world := w'; known := known s |}.

Definition reachable (Buffer_from_base64 : string → list byte)
    (js_lt : Value → Z → bool) (s : System) : Prop :=
  rtc (step Buffer_from_base64 js_lt) initial s.

(** The states reached by steps that all satisfy [keep], a condition on the
    world before and after the step. *)
Definition reachable_keeping (keep : World → World → Prop)
    (Buffer_from_base64 : string → list byte) (js_lt : Value → Z → bool)
    (s : System) : Prop :=
  rtc (λ s1 s2, step Buffer_from_base64 js_lt s1 s2 ∧ keep (world s1) (world s2))
    initial s.

(** No object leaves the bucket; no record leaves the table. *)
Definition keeps_objects (w w' : World) : Prop :=
  ∀ key, is_Some (bucket w !! key) → is_Some (bucket w' !! key).

Definition keeps_records (w w' : World) : Prop :=
  ∀ j, is_Some (table w !! j) → is_Some (table w' !! j).

(** * Scenarios *)

Definition empty_world : World := world initial.

Definition widget_url : option Value := Some (VStr "https://example.com/widget").

Definition widget_body : Value := VObj [("productUrl", VStr "https://example.com/widget")].

(** Create hands out the id job-1; the send is answered by [send]. *)
Definition create_script (send : option string) : Receiver.Script :=
  {| Receiver.randomUUID := "job-1";
     Receiver.now_createdAt := 1700000000000;
     Receiver.now_ttl := 1700000000001;
     Receiver.put_fault := None;
     Receiver.send_fault := send |}.

Definition widget_page : Worker.PageContent :=
  {| Worker.url := widget_url;
     Worker.productName := "Widget";
     Worker.title := "Widget";
     Worker.description := "";
     Worker.price := "$9.99";
     Worker.originalPrice := "";
     Worker.offer := "";
     Worker.phone := "";
     Worker.location := "";
     Worker.bodyText := "Widget $9.99" |}.

Definition widget_message : Message :=
  {| msg_jobId := "job-1"; msg_productUrl := widget_url |}.

(** A work item for a job id that was never submitted. *)
Definition ghost_message : Message :=
  {| msg_jobId := "ghost"; msg_productUrl := widget_url |}.

(** A decoder standing for [Buffer.from(s, "base64")] in the scenarios: the
    string "/9j/" decodes to the JPEG signature, "iVBO" to the PNG one. *)
Definition sample_decoder (s : string) : list byte :=
  if String.eqb s "/9j/" then [xff; xd8; xff]
  else if String.eqb s "iVBO" then [x89; x50; x4e]
  else [].

(** The comparison [v < n] on the values the scenarios store, which are
    numbers. *)
Definition num_lt (v : Value) (n : Z) : bool :=
  match v with
  | VNum a => a <? n
  | _ => false
  end.

(** Every step succeeds and the model returns the image [imageData]. *)
Definition success_script (imageData : string) : Worker.Script :=
  {| Worker.upd_processing := None;
     Worker.scrape := Ok widget_page;
     Worker.synth :=
       Ok [{| Worker.type := "image_generation_call";
              Worker.result := Some imageData |}];
     Worker.put_object := None;
     Worker.presign := Ok "https://bucket.s3/job-1?sig=1";
     Worker.now_completedAt := 1700000060000;
     Worker.now_expiresAt := 1700000060001;
     Worker.upd_completed := None;
     Worker.now_failedAt := 0;
     Worker.upd_failed := None |}.

(** The scrape throws [e]; the write of [failed] is answered by [failed_write]. *)
Definition scrape_failure_script (e : string) (failed_write : option string) : Worker.Script :=
  {| Worker.upd_processing := None;
     Worker.scrape := Throw e;
     Worker.synth := Ok [];
     Worker.put_object := None;
     Worker.presign := Ok "";
     Worker.now_completedAt := 0;
     Worker.now_expiresAt := 0;
     Worker.upd_completed := None;
     Worker.now_failedAt := 1700000070000;
     Worker.upd_failed := failed_write |}.

(** A status read at [now] whose signing call answers [link]. *)
Definition read_script (now : Z) (link : Outcome string) : Responder.Script :=
  {| Responder.get_fault := None;
     Responder.now := now;
     Responder.presign := link |}.

(** job-1 was submitted, its work item is not consumed yet. *)
Definition submitted_system : System :=
  after_create (Ok widget_body) (create_script None) initial.

(** job-1 was submitted and processed successfully; its link expires at
    1700003660001. *)
Definition completed_system : System :=
  after_process sample_decoder [(Ok widget_message, success_script "/9j/")]
    submitted_system.

Definition completed_world : World := world completed_system.


(** * Further observations *)

(** The attributes that a Process invocation may set. *)
Definition worker_attributes : list string :=
  ["status"; "imageUrl"; "fileName"; "productName"; "price"; "offer";
   "contentType"; "completedAt"; "expiresAt"; "error"; "failedAt"].

(** The attributes set by the write of [failed], and by the write of
    [completed]. *)
Definition failure_attributes : list string := ["status"; "error"; "failedAt"].

Definition success_attributes : list string :=
  ["status"; "imageUrl"; "fileName"; "productName"; "price"; "offer";
   "contentType"; "completedAt"; "expiresAt"].

(** A terminal status. *)
Definition terminal (status : option Value) : Prop :=
  status = Some (VStr "completed") ∨ status = Some (VStr "failed").

(** The body of the record parses, and the store accepts the write of
    [failed] when it comes to it. *)
Definition settled (r : Outcome Message * Worker.Script) : Prop :=
  (∃ m, r.1 = Ok m) ∧ Worker.upd_failed r.2 = None.

(** job-1 was submitted and its processing failed at the scrape. *)
Definition failed_system : System :=
  after_process sample_decoder
    [(Ok widget_message, scrape_failure_script "timeout of 10000ms exceeded" None)]
    submitted_system.

(** The status values. *)
Definition statuses : list string := ["pending"; "processing"; "completed"; "failed"].

(** The attributes that Create writes, followed by those of Process. *)
Definition attribute_names : list string :=
  ["jobId"; "productUrl"; "createdAt"; "ttl"] ++ worker_attributes.

(** A stored record is well formed: it carries its own key as [jobId], one of
    the four status values, and no attribute beyond those the handlers
    write. *)
Definition record_ok (jobId : string) (item : Item) : Prop :=
  item !! "jobId" = Some (VStr jobId) ∧
  (∃ status, item !! "status" = Some (VStr status) ∧ status ∈ statuses) ∧
  ∀ k, is_Some (item !! k) → k ∈ attribute_names.

Definition table_ok (t : gmap string Item) : Prop :=
  ∀ j item, t !! j = Some item → record_ok j item.

(** The [SET] list of a status update of the worker. *)
Definition sets_ok (sets : list (string * Value)) : Prop :=
  Forall (λ kv, kv.1 ∈ worker_attributes) sets ∧
  ∃ status rest,
    sets = ("status", VStr status) :: rest ∧
    ("status" ∉ rest.*1) ∧ status ∈ statuses.

(** Every completed record names a file that is in the bucket. *)
Definition artifacts_stored (t : gmap string Item) (b : gmap string S3Object) : Prop :=
  ∀ j item,
    t !! j = Some item →
    item !! "status" = Some (VStr "completed") →
    ∃ fileName, item !! "fileName" = Some (VStr fileName) ∧ is_Some (b !! fileName).

(** Every queued work item has a record. *)
Definition queue_backed (w : World) : Prop :=
  ∀ m, m ∈ queue w → is_Some (table w !! msg_jobId m).

(** The fields that the response to a status read may carry, by the status
    of the record. *)
Definition response_fields (status : option Value) : list string :=
  if strict_eq_str status "completed" then
    ["jobId"; "status"; "createdAt"; "imageUrl"; "urlExpiresAt"; "overlayText";
     "contentType"; "completedAt"; "fileName"]
  else if strict_eq_str status "failed" then
    ["jobId"; "status"; "createdAt"; "error"; "failedAt"]
  else if strict_eq_str status "processing" then
    ["jobId"; "status"; "createdAt"; "message"]
  else ["jobId"; "status"; "createdAt"].

(** A string of code units that neither starts nor ends with white space. *)
Definition trimmed (l : list N) : Prop :=
  (∀ c r, l = c :: r → is_white_space c = false) ∧
  (∀ c r, rev l = c :: r → is_white_space c = false).

(** A metadata value in the form the object store is given: printable and at
    most 200 long. *)
Definition clean (s : string) : Prop :=
  Forall printable (units_of_string s) ∧ (String.length s ≤ 200)%nat.

(** * The prompt and the page scrape

    [buildImagePrompt] and the part of [scrapeProductPage] that follows the
    selectors.  Strings are strings of code units below 256, on which
    [toLowerCase] changes the letters A-Z and the accented capitals
    0xC0-0xDE (0xD7 apart) and nothing else. *)

Module Page.

(** [c.toLowerCase()] for one code unit. *)
Definition lower (c : ascii) : ascii :=
  let n := N_of_ascii c in
  if ((65 <=? n) && (n <=? 90) || (192 <=? n) && (n <=? 214)
      || (216 <=? n) && (n <=? 222))%N
  then ascii_of_N (n + 32) else c.

Fixpoint toLowerCase (s : string) : string :=
  match s with
  | EmptyString => EmptyString
  | String c r => String (lower c) (toLowerCase r)
  end.

(** [s.includes(p)]. *)
Fixpoint includes (s p : string) : bool :=
  String.prefix p s
  || match s with
     | EmptyString => false
     | String _ r => includes r p
     end.

(** ToBoolean on a string. *)
Definition nonempty (s : string) : bool := negb (String.eqb s "").

(** *** [scrapeProductPage], after the page is fetched and parsed

    The results of the selectors are the input: [None] is the [undefined]
    that [attr] gives when no element matches or the attribute is missing, and
    [text] gives a string always.  The selectors are taken as independent of
    each other, which a parsed document need not allow. *)

Record Selection : Type := {
  sel_og_title : option string;          (* meta[property="og:title"] content *)
  sel_h1 : string;                       (* h1, first *)
  sel_product_title : string;            (* [class*="product-title"], first *)
  sel_product_name : string;             (* [class*="product-name"], first *)
  sel_title : string;                    (* title *)
  sel_itemprop_price : option string;    (* [itemprop="price"] content *)
  sel_class_price : string;              (* [class*="price"], first *)
  sel_id_price : string;                 (* [id*="price"], first *)
  sel_data_price : option string;        (* [data-price] data-price *)
  sel_class_cost : string;               (* [class*="cost"], first *)
  sel_original_price : string;           (* [class*="original-price"], first *)
  sel_old_price : string;                (* [class*="old-price"], first *)
  sel_was_price : string;                (* [class*="was-price"], first *)
  sel_body : string;                     (* body *)
  sel_meta_description : option string;  (* meta[name="description"] content *)
  sel_og_description : option string;    (* meta[property="og:description"] content *)
  sel_product_description : string;      (* [class*="product-description"], first *)
  sel_p : string;                        (* p, first *)
  sel_tel_href : option string;          (* a[href^="tel:"] href *)
  sel_class_phone : string;              (* [class*="phone"], first *)
  sel_class_location : string;           (* [class*="location"], first *)
  sel_class_address : string;            (* [class*="address"], first *)
  sel_itemprop_address : string          (* [itemprop="address"] *)
}.

(** [a || b] where [a] is a string or [undefined], and where it is a
    string. *)
Definition or_attr (a : option string) (b : string) : string :=
  match a with
  | Some s => if nonempty s then s else b
  | None => b
  end.

Definition or_text (a b : string) : string := if nonempty a then a else b.

(** [s.replace(/\s+/g, ' ')] on code units: every maximal run of white space
    becomes one space.  [run] tells that the unit before was white space. *)
Fixpoint collapse_from (run : bool) (l : list N) : list N :=
  match l with
  | [] => []
  | c :: r =>
      if is_white_space c
      then if run then collapse_from true r else 32%N :: collapse_from true r
      else c :: collapse_from false r
  end.

Definition collapse (l : list N) : list N := collapse_from false l.

(** [price.replace(/\s+/g, ' ').trim()]. *)
Definition clean_price (price : string) : string :=
  string_of_units (trim (collapse (units_of_string price))).

(** [text.replace(/\s+/g, ' ').trim().substring(0, 2000)]. *)
Definition clean_body (text : string) : string :=
  string_of_units
    (take 2000 (trim (collapse (units_of_string text)))).

(** [s.trim()]. *)
Definition trim (s : string) : string :=
  string_of_units (trim (units_of_string s)).

(** [s.replace(p, '')] for a string [p]: the first occurrence is removed. *)
Fixpoint remove_first (p s : string) : string :=
  if String.prefix p s
  then String.substring (String.length p) (String.length s) s
  else match s with
       | EmptyString => EmptyString
       | String c r => String c (remove_first p r)
       end.

(** The classes [\d] and [\s]. *)
Definition is_digit (c : ascii) : bool :=
  let n := N_of_ascii c in ((48 <=? n) && (n <=? 57))%N.

Definition is_space (c : ascii) : bool := is_white_space (N_of_ascii c).

(** The longest prefix whose characters are in the class, and the rest: what
    a greedy [+] or [*] on a class takes when the pattern after it cannot
    start with a character of the class. *)
Fixpoint span (class : ascii → bool) (s : string) : string * string :=
  match s with
  | EmptyString => (EmptyString, EmptyString)
  | String c r =>
      if class c
      then let '(taken, rest) := span class r in (String c taken, rest)
      else (EmptyString, s)
  end.

(** An alternation of lower-case words under the [i] flag: the first word
    that [s] starts with whatever the case of its letters, as [s] writes it,
    and what follows it. *)
Fixpoint word_of (words : list string) (s : string) : option (string * string) :=
  match words with
  | [] => None
  | w :: ws =>
      if String.prefix w (toLowerCase s)
      then Some (String.substring 0 (String.length w) s,
                 String.substring (String.length w) (String.length s) s)
      else word_of ws s
  end.

(** [/(\d+)%\s*(off|discount|sale)/i] at the start of [s]: groups 1 and 2. *)
Definition percent_word_at (s : string) : option (string * string) :=
  let '(digits, rest) := span is_digit s in
  if nonempty digits then
    match rest with
    | String "%" rest =>
        let '(_, rest) := span is_space rest in
        match word_of ["off"; "discount"; "sale"] rest with
        | Some (word, _) => Some (digits, word)
        | None => None
        end
    | _ => None
    end
  else None.

(** [/(save|get)\s*(\d+)%/i] at the start of [s]: groups 1 and 2. *)
Definition verb_percent_at (s : string) : option (string * string) :=
  match word_of ["save"; "get"] s with
  | Some (verb, rest) =>
      let '(_, rest) := span is_space rest in
      let '(digits, rest) := span is_digit rest in
      if nonempty digits then
        match rest with
        | String "%" _ => Some (verb, digits)
        | _ => None
        end
      else None
  | None => None
  end.

(** [s.match(re)] for a pattern without the [g] flag: the groups of the
    leftmost match, or [None] for [null]. *)
Fixpoint search (at_start : string → option (string * string)) (s : string)
  : option (string * string) :=
  match at_start s with
  | Some groups => Some groups
  | None =>
      match s with
      | EmptyString => None
      | String _ r => search at_start r
      end
  end.

(** The six words that make the page count as carrying an offer. *)
Definition has_offer_word (lowerBodyText : string) : bool :=
  includes lowerBodyText "discount" || includes lowerBodyText "off"
  || includes lowerBodyText "sale" || includes lowerBodyText "deal"
  || includes lowerBodyText "promo" || includes lowerBodyText "offer".

Definition scrapeProductPage (url : option Value) (sel : Selection)
  : Worker.PageContent :=
  let productName :=
    or_attr (option_map trim (sel_og_title sel))
      (or_text (trim (sel_h1 sel))
         (or_text (trim (sel_product_title sel))
            (or_text (trim (sel_product_name sel))
               (or_text (trim (sel_title sel)) "")))) in
  let price :=
    or_attr (sel_itemprop_price sel)
      (or_text (trim (sel_class_price sel))
         (or_text (trim (sel_id_price sel))
            (or_attr (sel_data_price sel)
               (or_text (trim (sel_class_cost sel)) "")))) in
  let price := clean_price price in
  let originalPrice :=
    or_text (trim (sel_original_price sel))
      (or_text (trim (sel_old_price sel))
         (or_text (trim (sel_was_price sel)) "")) in
  let bodyText := clean_body (sel_body sel) in
  let lowerBodyText := toLowerCase bodyText in
  let offer :=
    if has_offer_word lowerBodyText then
      let discountMatch :=
        match search percent_word_at bodyText with
        | Some groups => Some groups
        | None => search verb_percent_at bodyText
        end in
      match discountMatch with
      | Some (group1, group2) => or_text group1 group2 +:+ "% OFF"
      | None =>
          if nonempty originalPrice && nonempty price then "SPECIAL OFFER"
          else "ON SALE"
      end
    else "" in
  let description :=
    or_attr (sel_meta_description sel)
      (or_attr (sel_og_description sel)
         (or_text (trim (sel_product_description sel))
            (or_text (trim (sel_p sel)) ""))) in
  let phone :=
    or_attr (option_map (remove_first "tel:") (sel_tel_href sel))
      (or_text (trim (sel_class_phone sel)) "") in
  let location :=
    or_text (trim (sel_class_location sel))
      (or_text (trim (sel_class_address sel))
         (or_text (trim (sel_itemprop_address sel)) "")) in
  {| Worker.url := url;
     Worker.productName := or_text productName "Product";
     Worker.title := or_text productName "Product";
     Worker.description := description;
     Worker.price := price;
     Worker.originalPrice := originalPrice;
     Worker.offer := offer;
     Worker.phone := phone;
     Worker.location := location;
     Worker.bodyText := bodyText |}.

(** The double quote. *)
Definition dq : string := String (ascii_of_nat 34) EmptyString.

(** The sentence chosen for the call to action. *)
Definition use_cta (label : string) : string :=
  "Use " +:+ dq +:+ label +:+ dq +:+ " as the call-to-action. ".

Definition buildImagePrompt (pageContent : Worker.PageContent) : string :=
  let productName := Worker.productName pageContent in
  let description := Worker.description pageContent in
  let price := Worker.price pageContent in
  let location := Worker.location pageContent in
  let bodyText := Worker.bodyText pageContent in
  let offer := Worker.offer pageContent in
  let isRealEstate :=
    nonempty location || includes (toLowerCase bodyText) "property"
    || includes (toLowerCase bodyText) "house"
    || includes (toLowerCase bodyText) "apartment" in
  let isService :=
    includes (toLowerCase bodyText) "service"
    || includes (toLowerCase bodyText) "consulting"
    || includes (toLowerCase bodyText) "booking" in
  let prompt :=
    "Create a highly realistic, professional product photograph for advertising on Facebook and Instagram. " in
  let prompt := prompt +:+ ("Product Name: " +:+ productName +:+ ". ") in
  let prompt :=
    if nonempty description
    then prompt +:+ ("Description: " +:+ description +:+ ". ")
    else prompt in
  let prompt :=
    if isRealEstate then
      ((prompt
        +:+ "Create a stunning real estate photograph with professional composition, ")
       +:+ "natural lighting, wide angle view. Show the property in its best light. ")
      +:+ "Architectural photography style, high-end real estate marketing quality. "
    else if isService then
      (prompt
       +:+ "Professional service-oriented imagery, clean and modern aesthetic. ")
      +:+ "The image should be photorealistic with professional lighting, clean background. "
    else
      (prompt
       +:+ "The image should be photorealistic with professional lighting, clean background, ")
      +:+ "showing the product prominently. High-resolution commercial photography style. " in
  let prompt :=
    if nonempty bodyText then
      let keyInfo := String.substring 0 500 bodyText in
      prompt +:+ ("Context: " +:+ keyInfo +:+ ". ")
    else prompt in
  let prompt :=
    prompt
    +:+ "IMPORTANT: Add text overlays directly on the image for social media advertising. " in
  let prompt :=
    if nonempty productName then
      prompt
      +:+ ("Display the product name " +:+ dq +:+ productName +:+ dq
           +:+ " prominently at the top center of the image in large, bold, white text with a dark semi-transparent background for readability. ")
    else prompt in
  let prompt :=
    if nonempty price then
      prompt
      +:+ ("Display the price " +:+ dq +:+ price +:+ dq
           +:+ " in the top right corner in large, bold, eye-catching text (use gold or bright color) with a dark background. ")
    else prompt in
  let prompt :=
    if nonempty offer then
      prompt
      +:+ ("Display " +:+ dq +:+ offer +:+ dq
           +:+ " as a badge or banner in the top right corner in red or bright color with bold text. ")
    else prompt in
  let prompt :=
    prompt
    +:+ "Add an appropriate call-to-action button at the bottom center of the image. " in
  let prompt :=
    if isRealEstate then prompt +:+ use_cta "View Property"
    else if isService then prompt +:+ use_cta "Book Now"
    else if nonempty price then prompt +:+ use_cta "Buy Now"
    else prompt +:+ use_cta "Learn More" in
  let prompt :=
    prompt
    +:+ "Make the call-to-action button visually appealing with a contrasting color (like orange, red, or bright blue), bold text, and rounded corners. " in
  let prompt :=
    prompt
    +:+ "Ensure all text is highly readable with proper contrast, shadows, and backgrounds. " in
  let prompt :=
    prompt
    +:+ "The text should be professional, modern, and optimized for social media advertising. " in
  prompt
  +:+ "Photorealistic quality with text integrated naturally into the image composition.".

End Page.

(** The page is about real estate, or about a service, as
    [buildImagePrompt] decides it. *)
Definition is_real_estate (pageContent : Worker.PageContent) : bool :=
  Page.nonempty (Worker.location pageContent)
  || Page.includes (Page.toLowerCase (Worker.bodyText pageContent)) "property"
  || Page.includes (Page.toLowerCase (Worker.bodyText pageContent)) "house"
  || Page.includes (Page.toLowerCase (Worker.bodyText pageContent)) "apartment".

Definition is_service (pageContent : Worker.PageContent) : bool :=
  Page.includes (Page.toLowerCase (Worker.bodyText pageContent)) "service"
  || Page.includes (Page.toLowerCase (Worker.bodyText pageContent)) "consulting"
  || Page.includes (Page.toLowerCase (Worker.bodyText pageContent)) "booking".

(** The label of the call to action, by the order in which the code asks. *)
Definition cta_label (pageContent : Worker.PageContent) : string :=
  if is_real_estate pageContent then "View Property"
  else if is_service pageContent then "Book Now"
  else if Page.nonempty (Worker.price pageContent) then "Buy Now"
  else "Learn More".

(** The four sentences that end every prompt. *)
Definition prompt_closing : string :=
  "Make the call-to-action button visually appealing with a contrasting color (like orange, red, or bright blue), bold text, and rounded corners. "
  +:+ "Ensure all text is highly readable with proper contrast, shadows, and backgrounds. "
  +:+ "The text should be professional, modern, and optimized for social media advertising. "
  +:+ "Photorealistic quality with text integrated naturally into the image composition.".

Definition prompt_opening : string :=
  "Create a highly realistic, professional product photograph for advertising on Facebook and Instagram. ".

(** White space in single spaces only: every white-space unit is a space and
    the unit after it, if any, is not white space. *)
Fixpoint single_spaced (l : list N) : bool :=
  match l with
  | [] => true
  | c :: r =>
      (if is_white_space c
       then (c =? 32)%N
            && match r with [] => true | d :: _ => negb (is_white_space d) end
       else true)
      && single_spaced r
  end.

(** A run of decimal digits, at least one. *)
Definition is_number (s : string) : Prop :=
  s ≠ EmptyString ∧ Forall (λ c, Page.is_digit c = true) (list_ascii_of_string s).

(** The sentence that asks for the product name on the image. *)
Definition name_overlay (productName : string) : string :=
  "Display the product name " +:+ Page.dq +:+ productName +:+ Page.dq
  +:+ " prominently at the top center of the image in large, bold, white text with a dark semi-transparent background for readability. ".

(** * Properties *)

(** ** The receiver *)

(** A falsy [productUrl] is answered with 400 and nothing else happens. *)
Lemma receiver_falsy (v : Value) (p : option Value) (sc : Receiver.Script) (w : World) :
  destructure v "productUrl" = Ok p →
  truthy p = false →
  Receiver.handler (Ok v) sc w = (Ok (bad_request "Missing productUrl field"), w).
Proof.
  intros Hd Hp.
  unfold Receiver.handler, try_catch, bind, lift, ret.
  rewrite Hd, Hp. reflexivity.
Qed.

(** A truthy [productUrl]: the put, then the send, then the answer. *)
Lemma receiver_truthy (v : Value) (p : option Value) (sc : Receiver.Script) (w : World) :
  destructure v "productUrl" = Ok p →
  truthy p = true →
  let jobId := Receiver.randomUUID sc in
  let item := pending_item jobId p sc in
  let msg := {| msg_jobId := jobId; msg_productUrl := p |} in
  let w1 := log (PutItem item) w in
  let w2 := log (SendMessage msg) (with_table (λ t, <[jobId := item]> t) w1) in
  Receiver.handler (Ok v) sc w =
    match Receiver.put_fault sc, Receiver.send_fault sc with
    | Some e, _ => (Ok (internal_server_error e), w1)
    | None, Some e => (Ok (internal_server_error e), w2)
    | None, None => (Ok (accepted jobId), with_queue (λ q, q ++ [msg]) w2)
    end.
Proof.
  intros Hd Hp.
  unfold Receiver.handler, try_catch, bind, lift, ret, PutCommand,
    SendMessageCommand, call.
  rewrite Hd, Hp.
  destruct (Receiver.put_fault sc), (Receiver.send_fault sc); reflexivity.
Qed.

(** A body that is not JSON, or is [null], is answered with 500 and nothing
    else happens. *)
Lemma receiver_unparsed (message : string) (sc : Receiver.Script) (w : World) :
  Receiver.handler (Throw message) sc w = (Ok (internal_server_error message), w).
Proof. reflexivity. Qed.

Lemma receiver_null_body (sc : Receiver.Script) (w : World) :
  ∃ message, Receiver.handler (Ok VNull) sc w = (Ok (internal_server_error message), w).
Proof. eexists. reflexivity. Qed.

(** The handler never lets an error escape. *)
Lemma receiver_total (parsed : Outcome Value) (sc : Receiver.Script) (w : World) :
  ∃ r w', Receiver.handler parsed sc w = (Ok r, w').
Proof.
  destruct parsed as [v|e]; [|eauto using receiver_unparsed].
  destruct (destructure v "productUrl") as [p|e] eqn:Hd.
  - destruct (truthy p) eqn:Hp.
    + rewrite (receiver_truthy v p sc w Hd Hp).
      destruct (Receiver.put_fault sc), (Receiver.send_fault sc); eauto.
    + rewrite (receiver_falsy v p sc w Hd Hp). eauto.
  - unfold Receiver.handler, try_catch, bind, lift, ret. rewrite Hd. eauto.
Qed.

(** C6, as the code has it.  A submission whose [productUrl] is missing or
    the empty string gets no [jobId], and the world is left exactly as it
    was: no record is written, nothing is enqueued and no call is even
    issued.  The answer is the client error 400 when the body is JSON for a
    value other than [null]; a body that is absent or is not JSON, and the
    body [null], are answered with the server error 500 that carries the
    message of the error thrown. *)
Theorem create_without_productUrl_is_rejected
    (parsed : Outcome Value) (sc : Receiver.Script) (w : World) :
  lacks_productUrl parsed →
  ∃ r,
    Receiver.handler parsed sc w = (Ok r, w) ∧
    body r !! "jobId" = None ∧
    match parsed with
    | Throw e => r = internal_server_error e
    | Ok VNull => ∃ e, r = internal_server_error e
    | Ok _ => r = bad_request "Missing productUrl field"
    end.
Proof.
  intros H. destruct parsed as [v|e].
  - destruct v as [|b|n|t|l|l];
      try (eexists; split; [reflexivity|]; split; [reflexivity|]; eauto; fail).
    cbn [lacks_productUrl] in H.
    exists (bad_request "Missing productUrl field").
    split; [|done].
    destruct H as [H|H];
      apply (receiver_falsy (VObj l) _ sc w eq_refl); by rewrite H.
  - exists (internal_server_error e). by rewrite receiver_unparsed.
Qed.

Lemma create_without_productUrl_is_rejected_witness :
  ∃ r,
    Receiver.handler (Ok (VObj [("productUrl", VStr "")])) (create_script None)
      empty_world = (Ok r, empty_world) ∧
    body r !! "jobId" = None ∧
    r = bad_request "Missing productUrl field".
Proof.
  apply (create_without_productUrl_is_rejected
           (Ok (VObj [("productUrl", VStr "")])) (create_script None) empty_world).
  right. reflexivity.
Defined.

(** C6 fails as stated: the body [null] carries no [productUrl], and the
    answer is the server error 500, not a validation error; so is the answer
    to a body that is not JSON. *)
Lemma null_body_is_a_server_error :
  lacks_productUrl (Ok VNull) ∧
  lacks_productUrl (Throw "Unexpected token h in JSON at position 0") ∧
  (∃ r w',
     Receiver.handler (Ok VNull) (create_script None) empty_world = (Ok r, w') ∧
     statusCode r = 500 ∧ statusCode r ≠ 400) ∧
  (∃ r w',
     Receiver.handler (Throw "Unexpected token h in JSON at position 0")
       (create_script None) empty_world = (Ok r, w') ∧
     statusCode r = 500 ∧ statusCode r ≠ 400).
Proof.
  split; [exact I|]. split; [exact I|].
  split; eexists _, _; (split; [reflexivity|]); (split; [reflexivity|discriminate]).
Qed.

(** C7. For a valid submission (a non-empty string [productUrl]) the record
    [pending_item] is put first and the message is sent only after the put has
    completed: a rejected put ends the request before any send.  When the
    send is rejected after the put, the record is stored with status
    [pending], the queue is as before, and the caller gets the server error
    500 without a [jobId]. *)
Theorem record_is_written_before_enqueue
    (v : Value) (productUrl : string) (sc : Receiver.Script) (w : World) :
  destructure v "productUrl" = Ok (Some (VStr productUrl)) →
  productUrl ≠ "" →
  let jobId := Receiver.randomUUID sc in
  let item := pending_item jobId (Some (VStr productUrl)) sc in
  let msg := {| msg_jobId := jobId; msg_productUrl := Some (VStr productUrl) |} in
  ∃ r w',
    Receiver.handler (Ok v) sc w = (Ok r, w') ∧
    item !! "status" = Some (VStr "pending") ∧
    item !! "createdAt" = Some (VNum (Receiver.now_createdAt sc)) ∧
    item !! "ttl" = Some (VNum (Receiver.now_ttl sc / 1000 + 86400)) ∧
    match Receiver.put_fault sc, Receiver.send_fault sc with
    | Some e, _ =>
        trace w' = trace w ++ [PutItem item] ∧
        table w' = table w ∧ queue w' = queue w ∧
        r = internal_server_error e
    | None, Some e =>
        trace w' = trace w ++ [PutItem item; SendMessage msg] ∧
        table w' !! jobId = Some item ∧ queue w' = queue w ∧
        r = internal_server_error e ∧ body r !! "jobId" = None
    | None, None =>
        trace w' = trace w ++ [PutItem item; SendMessage msg] ∧
        table w' !! jobId = Some item ∧ queue w' = queue w ++ [msg] ∧
        r = accepted jobId ∧ body r !! "jobId" = Some (VStr jobId)
    end.
Proof.
  intros Hd Hne jobId item msg.
  assert (Hp : truthy (Some (VStr productUrl)) = true).
  { simpl. destruct (String.eqb_spec productUrl ""); [contradiction|done]. }
  pose proof (receiver_truthy v _ sc w Hd Hp) as Hrun.
  cbv zeta in Hrun. fold jobId item msg in Hrun.
  destruct (Receiver.put_fault sc) as [e|], (Receiver.send_fault sc) as [e'|];
    eexists _, _; (split; [exact Hrun|]);
    (split; [reflexivity|]); (split; [reflexivity|]); (split; [reflexivity|]);
    cbn [trace table queue log with_table with_queue];
    rewrite <- ?app_assoc, ?lookup_insert_eq; done.
Qed.

Lemma record_is_written_before_enqueue_witness :
  let sc := create_script (Some "queue unavailable") in
  let item := pending_item "job-1" widget_url sc in
  ∃ r w',
    Receiver.handler (Ok widget_body) sc empty_world = (Ok r, w') ∧
    item !! "status" = Some (VStr "pending") ∧
    item !! "createdAt" = Some (VNum 1700000000000) ∧
    item !! "ttl" = Some (VNum 1700086400) ∧
    trace w' = [PutItem item; SendMessage widget_message] ∧
    table w' !! "job-1" = Some item ∧ queue w' = [] ∧
    r = internal_server_error "queue unavailable" ∧ body r !! "jobId" = None.
Proof.
  exact (record_is_written_before_enqueue widget_body
           "https://example.com/widget" (create_script (Some "queue unavailable"))
           empty_world eq_refl ltac:(discriminate)).
Defined.

(** ** The worker *)

(** An attribute that the update does not set keeps its value. *)
Lemma apply_sets_other (sets : list (string * Value)) (item : Item) (k : string) :
  k ∉ sets.*1 → apply_sets item sets !! k = item !! k.
Proof.
  revert item. induction sets as [|[k' v] sets IH]; intros item Hk; [done|].
  rewrite fmap_cons, not_elem_of_cons in Hk. destruct Hk as [Hne Hk].
  change (apply_sets item ((k', v) :: sets)) with (apply_sets (<[k' := v]> item) sets).
  rewrite IH by done. by rewrite lookup_insert_ne.
Qed.

(** The first attribute set holds its value unless it is set again. *)
Lemma apply_sets_head (sets : list (string * Value)) (item : Item) (k : string) (v : Value) :
  k ∉ sets.*1 → apply_sets item ((k, v) :: sets) !! k = Some v.
Proof.
  intros Hk.
  change (apply_sets item ((k, v) :: sets)) with (apply_sets (<[k := v]> item) sets).
  rewrite apply_sets_other by done. apply lookup_insert_eq.
Qed.

Lemma updateJobStatus_accepted (jobId status : string)
    (additionalData : list (string * Value)) (w : World) :
  Worker.updateJobStatus jobId status additionalData None w =
    (Ok tt,
     with_table
       (λ t, <[jobId := apply_sets (default {["jobId" := VStr jobId]} (t !! jobId))
                          (("status", VStr status) :: additionalData)]> t)
       (log (UpdateItem jobId (("status", VStr status) :: additionalData)) w)).
Proof. reflexivity. Qed.

Lemma updateJobStatus_rejected (jobId status : string)
    (additionalData : list (string * Value)) (e : string) (w : World) :
  Worker.updateJobStatus jobId status additionalData (Some e) w =
    (Throw e, log (UpdateItem jobId (("status", VStr status) :: additionalData)) w).
Proof. reflexivity. Qed.

(** An accepted status update sets the status whatever was stored, and
    creates the record when none was stored. *)
Lemma updateJobStatus_sets_status (jobId status : string)
    (additionalData : list (string * Value)) (w : World) :
  "status" ∉ additionalData.*1 →
  status_of (Worker.updateJobStatus jobId status additionalData None w).2 jobId
    = Some (VStr status).
Proof.
  intros Hk. rewrite updateJobStatus_accepted.
  unfold status_of, attr. cbn [snd table with_table log].
  rewrite lookup_insert_eq. cbn [mbind option_bind].
  by apply apply_sets_head.
Qed.

(** An update touches no other record. *)
Lemma updateJobStatus_other (jobId status : string)
    (additionalData : list (string * Value)) (fault : option string)
    (w : World) (j : string) :
  j ≠ jobId →
  table (Worker.updateJobStatus jobId status additionalData fault w).2 !! j
    = table w !! j.
Proof.
  intros Hne. destruct fault; [done|].
  rewrite updateJobStatus_accepted. cbn [snd table with_table log].
  by rewrite lookup_insert_ne.
Qed.

Lemma sanitizeMetadata_string (s : string) :
  ∃ r, sanitizeMetadata (Some (VStr s)) = Ok r.
Proof.
  unfold sanitizeMetadata. destruct (negb (truthy (Some (VStr s)))); eauto.
Qed.

Ltac unfold_worker :=
  unfold Worker.process_record, Worker.pipeline, Worker.updateJobStatus,
    Worker.scrapeProductPage, Worker.responses_create, PutObjectCommand,
    UpdateCommand, getSignedUrl, try_catch, bind, call, request, throw, lift, ret.

Ltac simpl_world :=
  cbn [fst snd table queue bucket trace log with_table with_queue with_bucket].

(** An attribute of the record just updated, read back. *)
Ltac solve_attr :=
  unfold status_of, attr; simpl_world; rewrite lookup_insert_eq;
  cbn [mbind option_bind]; unfold apply_sets; cbn [foldl fst snd];
  rewrite ?lookup_insert_ne by done; rewrite ?lookup_insert_eq; done.

(** Case analysis on the innermost stuck [match] of the goal, until none is
    left. *)
Ltac run_cases :=
  repeat (cbv beta iota zeta;
          match goal with
          | |- context [match ?x with _ => _ end] =>
              lazymatch x with
              | context [match _ with _ => _ end] => fail
              | _ => destruct x eqn:?
              end
          end);
  cbv beta iota zeta.

Section WorkerProperties.

Variable Buffer_from_base64 : string → list byte.

Local Abbreviation pipeline := (Worker.pipeline Buffer_from_base64).
Local Abbreviation process_record := (Worker.process_record Buffer_from_base64).

Lemma process_record_caught (m : Message) (sc : Worker.Script) (w w1 : World) (e : string) :
  pipeline (msg_jobId m) (msg_productUrl m) sc w = (Throw e, w1) →
  process_record m sc w =
    Worker.updateJobStatus (msg_jobId m) "failed"
      [("error", VStr e); ("failedAt", VNum (Worker.now_failedAt sc))]
      (Worker.upd_failed sc) w1.
Proof. intros H. unfold Worker.process_record, try_catch. by rewrite H. Qed.

Lemma process_record_returned (m : Message) (sc : Worker.Script) (w w1 : World) :
  pipeline (msg_jobId m) (msg_productUrl m) sc w = (Ok tt, w1) →
  process_record m sc w = (Ok tt, w1).
Proof. intros H. unfold Worker.process_record, try_catch. by rewrite H. Qed.

(** When a step throws, the [try] block throws the same error. *)
Lemma pipeline_step_throws (m : Message) (sc : Worker.Script) (w : World) (e : string) :
  step_throws m sc e →
  ∃ w1, pipeline (msg_jobId m) (msg_productUrl m) sc w = (Throw e, w1).
Proof.
  intros H. unfold Worker.pipeline, bind, Worker.updateJobStatus, UpdateCommand,
    call, Worker.scrapeProductPage, Worker.responses_create, request, throw, lift,
    PutObjectCommand, getSignedUrl.
  destruct H as [e H1 H2|pc e H1 H2 H3|pc out H1 H2 H3 H4
                 |pc out img pu e H1 H2 H3 H4 H5 H6 H7].
  - rewrite H1, H2. eauto.
  - rewrite H1, H2, H3. eauto.
  - rewrite H1, H2, H3. destruct H4 as [->| ->]; eauto.
  - rewrite H1, H2, H3, H4, H6, H7.
    apply String.eqb_neq in H5. rewrite H5.
    destruct (sanitizeMetadata_string (Worker.productName pc)) as [r1 ->].
    destruct (sanitizeMetadata_string (Worker.price pc)) as [r2 ->].
    eauto.
Qed.

(** A [try] block that returns has written [completed] last. *)
Lemma pipeline_returns_completed (jobId : string) (productUrl : option Value)
    (sc : Worker.Script) (w w1 : World) :
  pipeline jobId productUrl sc w = (Ok tt, w1) →
  status_of w1 jobId = Some (VStr "completed").
Proof.
  unfold_worker. run_cases; intros H; try discriminate.
  injection H as <-. solve_attr.
Qed.

(** One record touches the table at its own key only. *)
Lemma process_record_other (m : Message) (sc : Worker.Script) (w : World) (j : string) :
  j ≠ msg_jobId m →
  table (process_record m sc w).2 !! j = table w !! j.
Proof.
  intros Hne. unfold_worker.
  run_cases; simpl_world; rewrite ?lookup_insert_ne by done; done.
Qed.

(** When the write of [failed] is accepted, an invocation returns normally
    and leaves the record in a terminal state. *)
Lemma process_record_terminal (m : Message) (sc : Worker.Script) (w : World) :
  Worker.upd_failed sc = None →
  ∃ w', process_record m sc w = (Ok tt, w') ∧
        (status_of w' (msg_jobId m) = Some (VStr "completed") ∨
         status_of w' (msg_jobId m) = Some (VStr "failed")).
Proof.
  intros Hf.
  destruct (pipeline (msg_jobId m) (msg_productUrl m) sc w) as [[[]|e] w1] eqn:Hp.
  - exists w1. split; [by apply process_record_returned|].
    left. by eapply pipeline_returns_completed.
  - rewrite (process_record_caught _ _ _ _ _ Hp), Hf, updateJobStatus_accepted.
    eexists. split; [reflexivity|]. right. solve_attr.
Qed.

(** When a step throws, the table is as the write of [processing] left
    it. *)
Lemma pipeline_step_throws_table (m : Message) (sc : Worker.Script) (w : World) (e : string) :
  step_throws m sc e →
  ∃ w1, pipeline (msg_jobId m) (msg_productUrl m) sc w = (Throw e, w1) ∧
        table w1
        = table (Worker.updateJobStatus (msg_jobId m) "processing" [] None w).2.
Proof.
  intros H. unfold Worker.pipeline, bind, Worker.updateJobStatus, UpdateCommand,
    call, Worker.scrapeProductPage, Worker.responses_create, request, throw, lift,
    PutObjectCommand, getSignedUrl.
  destruct H as [e H1 H2|pc e H1 H2 H3|pc out H1 H2 H3 H4
                 |pc out img pu e H1 H2 H3 H4 H5 H6 H7].
  - rewrite H1, H2. eauto.
  - rewrite H1, H2, H3. eauto.
  - rewrite H1, H2, H3. destruct H4 as [->| ->]; eauto.
  - rewrite H1, H2, H3, H4, H6, H7.
    apply String.eqb_neq in H5. rewrite H5.
    destruct (sanitizeMetadata_string (Worker.productName pc)) as [r1 ->].
    destruct (sanitizeMetadata_string (Worker.price pc)) as [r2 ->].
    eauto.
Qed.

(** The write of [processing] leaves every attribute but [status] as it
    was. *)
Lemma processing_keeps_attribute (jobId k : string) (w : World) :
  k ≠ "status" → k ≠ "jobId" →
  attr (Worker.updateJobStatus jobId "processing" [] None w).2 jobId k
  = attr w jobId k.
Proof.
  intros Hs Hj. rewrite updateJobStatus_accepted.
  unfold attr. simpl_world. rewrite lookup_insert_eq. cbn [mbind option_bind].
  rewrite apply_sets_other
    by (cbn; intros ->%list_elem_of_singleton; by destruct Hs).
  destruct (table w !! jobId) as [item|]; [done|].
  cbn [default mbind option_bind]. by rewrite lookup_singleton_ne.
Qed.

(** C2, as the code has it.  When the scrape, synthesis or upload step throws
    [e], what follows depends on the record store's answer to the write of
    [failed].  When it accepts, the iteration, and the invocation for this
    one record, return normally and the record has status [failed], the
    thrown message as [error] (non-empty whenever the message is) and
    [failedAt] set to the clock reading.  When it
    rejects, the rejection leaves the handler, whatever records follow in the
    batch; the record is left at [processing], and [error] and [failedAt] are
    as they were before the invocation: the error of this run is not
    recorded. *)
Theorem failed_step_is_recorded (m : Message) (sc : Worker.Script) (w : World)
    (e : string) (rest : list (Outcome Message * Worker.Script)) :
  step_throws m sc e →
  match Worker.upd_failed sc with
  | None =>
      ∃ w', process_record m sc w = (Ok tt, w') ∧
            Worker.handler Buffer_from_base64 [(Ok m, sc)] w = (Ok tt, w') ∧
            status_of w' (msg_jobId m) = Some (VStr "failed") ∧
            attr w' (msg_jobId m) "error" = Some (VStr e) ∧
            attr w' (msg_jobId m) "failedAt" = Some (VNum (Worker.now_failedAt sc))
  | Some rejection =>
      ∃ w', process_record m sc w = (Throw rejection, w') ∧
            Worker.handler Buffer_from_base64 ((Ok m, sc) :: rest) w
              = (Throw rejection, w') ∧
            status_of w' (msg_jobId m) = Some (VStr "processing") ∧
            attr w' (msg_jobId m) "error" = attr w (msg_jobId m) "error" ∧
            attr w' (msg_jobId m) "failedAt" = attr w (msg_jobId m) "failedAt"
  end.
Proof.
  intros Hs.
  destruct (pipeline_step_throws_table m sc w e Hs) as (w1 & Hp & Ht).
  pose proof (process_record_caught _ _ _ _ _ Hp) as Hrun.
  destruct (Worker.upd_failed sc) as [rejection|].
  - rewrite updateJobStatus_rejected in Hrun.
    eexists. split; [exact Hrun|]. split.
    { cbn [Worker.handler]. unfold Worker.handle_record, bind, lift.
      by rewrite Hrun. }
    unfold status_of.
    assert (Hattr : ∀ k,
              attr (log (UpdateItem (msg_jobId m)
                           [("status", VStr "failed"); ("error", VStr e);
                            ("failedAt", VNum (Worker.now_failedAt sc))]) w1)
                (msg_jobId m) k
              = attr (Worker.updateJobStatus (msg_jobId m) "processing" [] None w).2
                  (msg_jobId m) k).
    { intros k. unfold attr. cbn [table log]. by rewrite Ht. }
    rewrite !Hattr. split; [|split].
    + apply updateJobStatus_sets_status. cbn. apply not_elem_of_nil.
    + by apply processing_keeps_attribute.
    + by apply processing_keeps_attribute.
  - rewrite updateJobStatus_accepted in Hrun.
    eexists. split; [exact Hrun|]. split.
    { cbn [Worker.handler]. unfold Worker.handle_record, bind, lift, ret.
      by rewrite Hrun. }
    repeat split; solve_attr.
Qed.

Example toString_hex_jpeg :
  toString_hex [xff; xd8; xff; xe0; x00; x10] 0 4 = "ffd8ffe0".
Proof. reflexivity. Qed.

Example detect_format_png :
  Worker.detect_format (toString_hex [x89; x50; x4e; x47; x0d] 0 4)
    = ("png", "image/png").
Proof. reflexivity. Qed.

Example detect_format_short : Worker.detect_format (toString_hex [xff] 0 4)
    = ("jpg", "image/jpeg").
Proof. reflexivity. Qed.

Example detect_format_gif :
  Worker.detect_format (toString_hex [x47; x49; x46; x38] 0 4)
    = ("jpg", "image/jpeg").
Proof. reflexivity. Qed.

(** The signature test of the code agrees with the classification by
    leading bytes. *)
Lemma hex_prefix_ffd8 (b1 b2 : byte) (rest : string) :
  startsWith (hex_of_byte b1 +:+ hex_of_byte b2 +:+ rest) "ffd8"
    = Byte.eqb b1 xff && Byte.eqb b2 xd8.
Proof.
  destruct b1; try reflexivity.
  destruct b2; try reflexivity.
  destruct rest; reflexivity.
Qed.

Lemma hex_prefix_8950 (b1 b2 : byte) (rest : string) :
  startsWith (hex_of_byte b1 +:+ hex_of_byte b2 +:+ rest) "8950"
    = Byte.eqb b1 x89 && Byte.eqb b2 x50.
Proof.
  destruct b1; try reflexivity.
  destruct b2; try reflexivity.
  destruct rest; reflexivity.
Qed.

Lemma detect_format_leading (buf : list byte) :
  Worker.detect_format (toString_hex buf 0 4) = leading_format buf.
Proof.
  destruct buf as [|b1 [|b2 rest]].
  - reflexivity.
  - destruct b1; reflexivity.
  - unfold Worker.detect_format, toString_hex.
    change (take (4 - 0) (drop 0 (b1 :: b2 :: rest)))
      with (b1 :: b2 :: take 2 rest).
    cbn [foldr]. rewrite hex_prefix_ffd8, hex_prefix_8950.
    destruct b1; try reflexivity; destruct b2; reflexivity.
Qed.


(** C5.  When every step of an invocation succeeds, the format is the one
    named by the leading bytes of the decoded image ([leading_format]: FFD8
    gives jpg and image/jpeg, 8950 gives png and image/png, anything else jpg
    and image/jpeg), and the key [jobId.extension] is at once the key of the
    uploaded object and the [fileName] written to the completed record. *)
Theorem artifact_key_follows_signature
    (m : Message) (sc : Worker.Script) (w : World)
    (pageContent : Worker.PageContent) (output : list Worker.OutputItem)
    (imageData producturl presignedUrl : string) :
  Worker.upd_processing sc = None →
  Worker.scrape sc = Ok pageContent →
  Worker.synth sc = Ok output →
  Worker.first_image output = Some imageData →
  imageData ≠ "" →
  sanitizeMetadata (msg_productUrl m) = Ok producturl →
  Worker.put_object sc = None →
  Worker.presign sc = Ok presignedUrl →
  Worker.upd_completed sc = None →
  let imageBuffer := Buffer_from_base64 imageData in
  let extension := (leading_format imageBuffer).1 in
  let contentType := (leading_format imageBuffer).2 in
  let fileName := msg_jobId m +:+ "." +:+ extension in
  ∃ w' o,
    process_record m sc w = (Ok tt, w') ∧
    status_of w' (msg_jobId m) = Some (VStr "completed") ∧
    attr w' (msg_jobId m) "fileName" = Some (VStr fileName) ∧
    attr w' (msg_jobId m) "contentType" = Some (VStr contentType) ∧
    bucket w' !! fileName = Some o ∧
    Body o = imageBuffer ∧
    ContentType o = contentType ∧
    PutObject fileName o ∈ trace w'.
Proof.
  intros H1 H2 H3 H4 H5 H6 H7 H8 H9 imageBuffer extension contentType fileName.
  apply String.eqb_neq in H5.
  destruct (sanitizeMetadata_string (Worker.productName pageContent)) as [r1 Hr1].
  destruct (sanitizeMetadata_string (Worker.price pageContent)) as [r2 Hr2].
  unfold_worker.
  rewrite H1, H2, H3, H4, H5, Hr1, Hr2, H6, H7, H8, H9.
  cbv beta iota zeta. rewrite detect_format_leading.
  fold imageBuffer. fold extension contentType. fold fileName.
  eexists _, _. split; [reflexivity|].
  split; [solve_attr|]. split; [solve_attr|]. split; [solve_attr|].
  simpl_world. rewrite lookup_insert_eq.
  split; [reflexivity|]. split; [reflexivity|]. split; [reflexivity|].
  rewrite !elem_of_app, !list_elem_of_singleton. auto.
Qed.


End WorkerProperties.

Lemma artifact_key_follows_signature_witness :
  ∃ w' o,
    Worker.process_record sample_decoder widget_message (success_script "iVBO")
      empty_world = (Ok tt, w') ∧
    status_of w' "job-1" = Some (VStr "completed") ∧
    attr w' "job-1" "fileName" = Some (VStr "job-1.png") ∧
    attr w' "job-1" "contentType" = Some (VStr "image/png") ∧
    bucket w' !! "job-1.png" = Some o ∧
    Body o = [x89; x50; x4e] ∧
    ContentType o = "image/png" ∧
    PutObject "job-1.png" o ∈ trace w'.
Proof.
  exact (artifact_key_follows_signature sample_decoder widget_message
           (success_script "iVBO") empty_world widget_page _ "iVBO"
           "https://example.com/widget" _
           eq_refl eq_refl eq_refl eq_refl ltac:(discriminate) eq_refl eq_refl
           eq_refl eq_refl).
Defined.

Lemma failed_step_is_recorded_witness :
  ∃ w',
    Worker.process_record sample_decoder widget_message
      (scrape_failure_script "timeout of 10000ms exceeded" None) empty_world
      = (Ok tt, w') ∧
    Worker.handler sample_decoder
      [(Ok widget_message, scrape_failure_script "timeout of 10000ms exceeded" None)]
      empty_world = (Ok tt, w') ∧
    status_of w' "job-1" = Some (VStr "failed") ∧
    attr w' "job-1" "error" = Some (VStr "timeout of 10000ms exceeded") ∧
    attr w' "job-1" "failedAt" = Some (VNum 1700000070000).
Proof.
  apply (failed_step_is_recorded sample_decoder widget_message
           (scrape_failure_script "timeout of 10000ms exceeded" None)
           empty_world "timeout of 10000ms exceeded" []).
  apply scrape_throws; reflexivity.
Defined.

(** C2 fails as stated: the scrape throws, the record store rejects the write
    of [failed] issued by the [catch] block, and the rejection escapes the
    handler; the record stays at [processing] and carries no error. *)
Lemma rejected_failed_write_escapes :
  let sc := scrape_failure_script "timeout of 10000ms exceeded"
              (Some "ServiceUnavailable") in
  let w := world submitted_system in
  status_of w "job-1" = Some (VStr "pending") ∧
  step_throws widget_message sc "timeout of 10000ms exceeded" ∧
  ∃ w',
    Worker.handler sample_decoder [(Ok widget_message, sc)] w
      = (Throw "ServiceUnavailable", w') ∧
    status_of w' "job-1" = Some (VStr "processing") ∧
    attr w' "job-1" "error" = None.
Proof.
  split; [reflexivity|]. split; [apply scrape_throws; reflexivity|].
  eexists. split; [reflexivity|]. split; reflexivity.
Qed.

(** The recorded message is the thrown one, also when it is empty. *)
Lemma empty_message_is_recorded :
  ∃ w',
    Worker.handler sample_decoder
      [(Ok widget_message, scrape_failure_script "" None)] empty_world = (Ok tt, w') ∧
    attr w' "job-1" "error" = Some (VStr "").
Proof. eexists. split; reflexivity. Qed.



(** ** Metadata sanitisation *)

Lemma trimStart_Forall (P : N → Prop) (l : list N) :
  Forall P l → Forall P (trimStart l).
Proof.
  induction 1 as [|c l Hc Hl IH]; cbn [trimStart]; [constructor|].
  destruct (is_white_space c); [exact IH|by constructor].
Qed.

Lemma trimStart_length (l : list N) : (List.length (trimStart l) ≤ List.length l)%nat.
Proof.
  induction l as [|c l IH]; cbn [trimStart]; [done|].
  destruct (is_white_space c); cbn [List.length]; lia.
Qed.

Lemma trim_Forall (P : N → Prop) (l : list N) : Forall P l → Forall P (trim l).
Proof.
  intros H. unfold trim, trimEnd.
  apply List.Forall_rev, trimStart_Forall, List.Forall_rev.
  by apply trimStart_Forall.
Qed.

Lemma trim_length (l : list N) : (List.length (trim l) ≤ List.length l)%nat.
Proof.
  unfold trim, trimEnd. rewrite List.length_rev.
  etrans; [apply trimStart_length|].
  rewrite List.length_rev. apply trimStart_length.
Qed.

Lemma sanitize_units_printable (value : list N) :
  Forall printable (sanitize_units value).
Proof.
  unfold sanitize_units. apply trim_Forall, Forall_take.
  apply List.Forall_forall. intros c Hc.
  apply List.filter_In in Hc as [_ Hc].
  unfold is_printable_ascii in Hc.
  apply andb_true_iff in Hc as [Hlo Hhi].
  apply N.leb_le in Hlo, Hhi. by split.
Qed.

Lemma sanitize_units_length (value : list N) :
  (List.length (sanitize_units value) ≤ 200)%nat.
Proof.
  unfold sanitize_units. etrans; [apply trim_length|].
  rewrite length_take. lia.
Qed.

Lemma units_of_string_of_units (l : list N) :
  Forall printable l → units_of_string (string_of_units l) = l.
Proof.
  intros H. unfold units_of_string, string_of_units.
  rewrite list_ascii_of_string_of_list_ascii.
  induction H as [|c l Hc Hl IH]; [done|].
  cbn [map]. rewrite IH. f_equal.
  apply N_ascii_embedding. unfold printable in Hc. lia.
Qed.

Lemma length_string_of_units (l : list N) :
  String.length (string_of_units l) = List.length l.
Proof.
  unfold string_of_units. induction l as [|c l IH]; [done|].
  cbn [map string_of_list_ascii String.length List.length]. by rewrite IH.
Qed.

(** C8.  Whatever the input, the sanitised value consists of printable ASCII
    code units only (no control character, nothing non-printable) and is at
    most 200 long; [null] and [undefined] sanitise to the empty string. *)
Theorem sanitized_metadata_is_clean :
  (∀ value : list N,
     Forall printable (sanitize_units value) ∧
     (List.length (sanitize_units value) ≤ 200)%nat) ∧
  (∀ s : string, ∃ r,
     sanitizeMetadata (Some (VStr s)) = Ok r ∧
     Forall printable (units_of_string r) ∧
     (String.length r ≤ 200)%nat) ∧
  sanitizeMetadata None = Ok "" ∧
  sanitizeMetadata (Some VNull) = Ok "".
Proof.
  split; [|split; [|done]].
  - intros value. split; [apply sanitize_units_printable|apply sanitize_units_length].
  - intros s. unfold sanitizeMetadata.
    destruct (negb (truthy (Some (VStr s)))).
    + exists "". split; [done|]. split; [constructor|cbn; lia].
    + eexists. split; [reflexivity|].
      rewrite units_of_string_of_units by apply sanitize_units_printable.
      rewrite length_string_of_units.
      split; [apply sanitize_units_printable|apply sanitize_units_length].
Qed.

Example sanitizeMetadata_sample :
  sanitizeMetadata (Some (VStr ("  Widget" +:+ String "009" (String "233" "Pro  "))))
    = Ok "Widget Pro".
Proof. reflexivity. Qed.

(** ** The responder *)

Lemma lookup_set_prop_eq (k : string) (v : option Value) (o : Object) :
  set_prop k v o !! k = v.
Proof.
  destruct v; cbn [set_prop]; [apply lookup_insert_eq|apply lookup_delete_eq].
Qed.

Lemma lookup_set_prop_ne (k k' : string) (v : option Value) (o : Object) :
  k ≠ k' → set_prop k v o !! k' = o !! k'.
Proof.
  intros Hne. destruct v; cbn [set_prop];
    [by apply lookup_insert_ne|by apply lookup_delete_ne].
Qed.

Lemma js_or_falsy (a : option Value) (b : Value) :
  truthy a = false → js_or a b = b.
Proof. intros H. unfold js_or. destruct a; [by rewrite H|done]. Qed.

Lemma js_or_number (e : Z) : js_or (Some (VNum e)) (VNum 0) = VNum e.
Proof.
  unfold js_or, truthy. destruct (Z.eqb_spec e 0) as [->|]; reflexivity.
Qed.

Ltac unfold_responder :=
  unfold Responder.handler, GetCommand, getSignedUrl, try_catch, bind, request, ret.

(** A property of the response body, read through the assignments made
    after it. *)
Ltac solve_body :=
  unfold completed_response; cbn [body statusCode];
  rewrite ?lookup_set_prop_ne by done; rewrite ?lookup_insert_ne by done;
  rewrite ?lookup_set_prop_ne by done;
  rewrite ?lookup_set_prop_eq, ?lookup_insert_eq; done.

Section ResponderProperties.

Variable js_lt : Value → Z → bool.

Local Abbreviation handler := (Responder.handler js_lt).

Lemma responder_missing_jobId (sc : Responder.Script) (w : World) :
  handler None sc w = (Ok (bad_request "Missing jobId"), w) ∧
  handler (Some "") sc w = (Ok (bad_request "Missing jobId"), w).
Proof. split; reflexivity. Qed.

Lemma responder_get_rejected (jobId e : string) (sc : Responder.Script) (w : World) :
  jobId ≠ "" →
  Responder.get_fault sc = Some e →
  handler (Some jobId) sc w = (Ok (internal_server_error e), log (GetItem jobId) w).
Proof.
  intros Hne Hg. apply String.eqb_neq in Hne.
  unfold_responder. by rewrite Hne, Hg.
Qed.

Lemma responder_not_found (jobId : string) (sc : Responder.Script) (w : World) :
  jobId ≠ "" →
  Responder.get_fault sc = None →
  table w !! jobId = None →
  handler (Some jobId) sc w = (Ok not_found, log (GetItem jobId) w).
Proof.
  intros Hne Hg Hl. apply String.eqb_neq in Hne.
  unfold_responder. by rewrite Hne, Hg, Hl.
Qed.

(** The read of a completed job, branch by branch. *)
Lemma responder_completed (jobId : string) (sc : Responder.Script) (w : World) (job : Item) :
  jobId ≠ "" →
  Responder.get_fault sc = None →
  table w !! jobId = Some job →
  job !! "status" = Some (VStr "completed") →
  let urlExpiresAt := js_or (job !! "expiresAt") (VNum 0) in
  let w1 := log (GetItem jobId) w in
  handler (Some jobId) sc w =
    if negb (truthy (job !! "imageUrl"))
       || js_lt urlExpiresAt (Responder.now sc + 300000)
    then
      if truthy (job !! "fileName") then
        match Responder.presign sc with
        | Ok newPresignedUrl =>
            (Ok (completed_response job (Some (VStr newPresignedUrl))
                   (VNum (Responder.now sc + 3600000))),
             log (GetSignedUrl (job !! "fileName") 3600) w1)
        | Throw e =>
            (Ok (internal_server_error e),
             log (GetSignedUrl (job !! "fileName") 3600) w1)
        end
      else (Ok (completed_response job (job !! "imageUrl") urlExpiresAt), w1)
    else (Ok (completed_response job (job !! "imageUrl") urlExpiresAt), w1).
Proof.
  intros Hne Hg Hl Hs urlExpiresAt w1. apply String.eqb_neq in Hne.
  assert (Hc : strict_eq_str (job !! "status") "completed" = true)
    by (by rewrite Hs).
  unfold_responder. rewrite Hne, Hg, Hl, Hc. cbv beta iota zeta.
  fold urlExpiresAt.
  destruct (negb (truthy (job !! "imageUrl")) || js_lt urlExpiresAt _);
    [destruct (truthy (job !! "fileName")); [destruct (Responder.presign sc)|]|];
    reflexivity.
Qed.

(** The handler never lets an error escape, writes nothing, and issues only
    reads. *)
Lemma responder_frame (jobId : option string) (sc : Responder.Script) (w : World) :
  ∃ r calls,
    handler jobId sc w =
      (Ok r, {| table := table w; queue := queue w; bucket := bucket w;
                trace := trace w ++ calls |}) ∧
    Forall is_read calls.
Proof.
  unfold_responder. unfold log.
  destruct jobId as [jobId|]; [destruct (String.eqb jobId "")|];
    run_cases; cbn [table queue bucket trace]; rewrite <- ?app_assoc;
    try (eexists _, _; split; [reflexivity|repeat constructor]).
  all: eexists _, []; rewrite app_nil_r; destruct w; split; [reflexivity|constructor].
Qed.

Lemma responder_table (jobId : option string) (sc : Responder.Script) (w : World) :
  table (handler jobId sc w).2 = table w.
Proof. by destruct (responder_frame jobId sc w) as (r & calls & -> & _). Qed.

(** The read of a record that is not completed. *)
Lemma responder_other_status (jobId : string) (sc : Responder.Script) (w : World) (job : Item) :
  jobId ≠ "" →
  Responder.get_fault sc = None →
  table w !! jobId = Some job →
  strict_eq_str (job !! "status") "completed" = false →
  ∃ b, handler (Some jobId) sc w = (Ok {| statusCode := 200; body := b |}, log (GetItem jobId) w) ∧
       b !! "jobId" = job !! "jobId" ∧
       b !! "status" = job !! "status" ∧
       b !! "createdAt" = job !! "createdAt".
Proof.
  intros Hne Hg Hl Hc. apply String.eqb_neq in Hne.
  unfold_responder. rewrite Hne, Hg, Hl, Hc. cbv beta iota zeta.
  destruct (strict_eq_str (job !! "status") "failed");
    [|destruct (strict_eq_str (job !! "status") "processing")];
    (eexists; split; [reflexivity|]); repeat split; solve_body.
Qed.

(** C10.  A status read, whatever it is asked and whatever the collaborators
    answer, returns a response and leaves the table, the queue and the bucket
    as they were; the only calls it issues are the point get and, when a link
    is renewed, its signing.  In particular the [imageUrl] and [expiresAt]
    stored for any job keep their values. *)
Theorem status_read_leaves_store_unchanged
    (jobId : option string) (sc : Responder.Script) (w : World) :
  ∃ r w' calls,
    handler jobId sc w = (Ok r, w') ∧
    table w' = table w ∧ queue w' = queue w ∧ bucket w' = bucket w ∧
    trace w' = trace w ++ calls ∧ Forall is_read calls ∧
    ∀ j, attr w' j "imageUrl" = attr w j "imageUrl" ∧
         attr w' j "expiresAt" = attr w j "expiresAt".
Proof.
  destruct (responder_frame jobId sc w) as (r & calls & Hrun & Hcalls).
  eexists _, _, calls. split; [exact Hrun|]. by repeat split.
Qed.

Section Numbers.

(** On a number, [<] is the order of the integers. *)
Hypothesis js_lt_number : ∀ a n, js_lt (VNum a) n = (a <? n).

Lemma stale_renews (job : Item) (now : Z) :
  stale job now →
  negb (truthy (job !! "imageUrl"))
  || js_lt (js_or (job !! "expiresAt") (VNum 0)) (now + 300000) = true.
Proof.
  intros [->|[(e & -> & He)|[Hf H0]]]; [done| |].
  - rewrite js_or_number, js_lt_number.
    apply orb_true_iff. right. by apply Z.ltb_lt.
  - rewrite (js_or_falsy _ _ Hf), js_lt_number.
    apply orb_true_iff. right. by apply Z.ltb_lt.
Qed.

(** C4.  The status read of a completed job: a stored link that is present
    and expires no sooner than five minutes from now is returned with its
    stored expiry, and the only call issued is the point get; when the link
    is due for renewal but no [fileName] is stored, the stored link and
    expiry (0 when none is stored) are returned, still with status 200; when
    it is due and the [fileName] is there, a link is signed for one hour and
    returned with the expiry now + 3600000 ms. *)
Theorem link_renewal_cases (jobId : string) (sc : Responder.Script) (w : World) (job : Item) :
  jobId ≠ "" →
  Responder.get_fault sc = None →
  table w !! jobId = Some job →
  job !! "status" = Some (VStr "completed") →
  let now := Responder.now sc in
  (∀ e, truthy (job !! "imageUrl") = true →
        job !! "expiresAt" = Some (VNum e) →
        now + 300000 ≤ e →
        handler (Some jobId) sc w =
          (Ok (completed_response job (job !! "imageUrl") (VNum e)),
           log (GetItem jobId) w)) ∧
  (stale job now →
   truthy (job !! "fileName") = false →
   handler (Some jobId) sc w =
     (Ok (completed_response job (job !! "imageUrl")
            (js_or (job !! "expiresAt") (VNum 0))),
      log (GetItem jobId) w)) ∧
  (∀ newPresignedUrl,
     stale job now →
     truthy (job !! "fileName") = true →
     Responder.presign sc = Ok newPresignedUrl →
     handler (Some jobId) sc w =
       (Ok (completed_response job (Some (VStr newPresignedUrl))
              (VNum (now + 3600000))),
        log (GetSignedUrl (job !! "fileName") 3600) (log (GetItem jobId) w))) ∧
  (∀ imageUrl urlExpiresAt,
     statusCode (completed_response job imageUrl urlExpiresAt) = 200 ∧
     body (completed_response job imageUrl urlExpiresAt) !! "imageUrl" = imageUrl ∧
     body (completed_response job imageUrl urlExpiresAt) !! "urlExpiresAt"
       = Some urlExpiresAt).
Proof.
  intros Hne Hg Hl Hs now.
  pose proof (responder_completed jobId sc w job Hne Hg Hl Hs) as Hrun.
  cbv zeta in Hrun. fold now in Hrun.
  split; [|split; [|split]].
  - intros e Hi He Hle. rewrite Hrun, Hi, He, js_or_number, js_lt_number.
    apply Z.ltb_ge in Hle. by rewrite Hle.
  - intros Hst Hf. by rewrite Hrun, (stale_renews _ _ Hst), Hf.
  - intros u Hst Hf Hp. by rewrite Hrun, (stale_renews _ _ Hst), Hf, Hp.
  - intros imageUrl urlExpiresAt. repeat split; solve_body.
Qed.

(** C3, as the code has it.  When a status read of a completed job renews the
    link, the new link and the expiry now + 3600000 ms go into the response,
    and the table is not written: the record keeps the [imageUrl] and
    [expiresAt] it had. *)
Theorem renewed_link_is_returned_only
    (jobId : string) (sc : Responder.Script) (w : World) (job : Item)
    (newPresignedUrl : string) :
  jobId ≠ "" →
  Responder.get_fault sc = None →
  table w !! jobId = Some job →
  job !! "status" = Some (VStr "completed") →
  stale job (Responder.now sc) →
  truthy (job !! "fileName") = true →
  Responder.presign sc = Ok newPresignedUrl →
  ∃ r w',
    handler (Some jobId) sc w = (Ok r, w') ∧
    body r !! "imageUrl" = Some (VStr newPresignedUrl) ∧
    body r !! "urlExpiresAt" = Some (VNum (Responder.now sc + 3600000)) ∧
    table w' = table w ∧
    attr w' jobId "imageUrl" = job !! "imageUrl" ∧
    attr w' jobId "expiresAt" = job !! "expiresAt".
Proof.
  intros Hne Hg Hl Hs Hst Hf Hp.
  rewrite (responder_completed jobId sc w job Hne Hg Hl Hs).
  cbv zeta. rewrite (stale_renews _ _ Hst), Hf, Hp.
  eexists _, _. split; [reflexivity|].
  split; [solve_body|]. split; [solve_body|].
  unfold attr. simpl_world. by rewrite Hl.
Qed.

End Numbers.

End ResponderProperties.

Lemma link_renewal_cases_witness :
  let job := default ∅ (table completed_world !! "job-1") in
  Responder.handler num_lt (Some "job-1")
    (read_script 1700000100000 (Ok "https://bucket.s3/job-1?sig=2")) completed_world
  = (Ok (completed_response job (Some (VStr "https://bucket.s3/job-1?sig=1"))
           (VNum 1700003660001)),
     log (GetItem "job-1") completed_world).
Proof.
  refine (proj1 (link_renewal_cases num_lt (λ a n, eq_refl) "job-1"
                   (read_script 1700000100000 (Ok "https://bucket.s3/job-1?sig=2"))
                   completed_world (default ∅ (table completed_world !! "job-1"))
                   ltac:(discriminate) eq_refl eq_refl eq_refl)
            1700003660001 eq_refl eq_refl ltac:(vm_compute; discriminate)).
Defined.

Lemma renewed_link_is_returned_only_witness :
  ∃ r w',
    Responder.handler num_lt (Some "job-1")
      (read_script 1700003600000 (Ok "https://bucket.s3/job-1?sig=2"))
      completed_world = (Ok r, w') ∧
    body r !! "imageUrl" = Some (VStr "https://bucket.s3/job-1?sig=2") ∧
    body r !! "urlExpiresAt" = Some (VNum 1700007200000) ∧
    table w' = table completed_world ∧
    attr w' "job-1" "imageUrl" = Some (VStr "https://bucket.s3/job-1?sig=1") ∧
    attr w' "job-1" "expiresAt" = Some (VNum 1700003660001).
Proof.
  refine (renewed_link_is_returned_only num_lt (λ a n, eq_refl) "job-1"
            (read_script 1700003600000 (Ok "https://bucket.s3/job-1?sig=2"))
            completed_world (default ∅ (table completed_world !! "job-1"))
            "https://bucket.s3/job-1?sig=2"
            ltac:(discriminate) eq_refl eq_refl eq_refl _ eq_refl eq_refl).
  right. left. exists 1700003660001. split; reflexivity.
Defined.

(** C3 fails as stated: the read of job-1 one minute before its link expires
    returns a new link and expiry, and the record read back afterwards still
    holds the old pair. *)
Lemma renewed_link_is_not_persisted :
  ∃ r w',
    Responder.handler num_lt (Some "job-1")
      (read_script 1700003600000 (Ok "https://bucket.s3/job-1?sig=2"))
      completed_world = (Ok r, w') ∧
    body r !! "imageUrl" = Some (VStr "https://bucket.s3/job-1?sig=2") ∧
    body r !! "urlExpiresAt" = Some (VNum 1700007200000) ∧
    attr w' "job-1" "imageUrl" = Some (VStr "https://bucket.s3/job-1?sig=1") ∧
    attr w' "job-1" "expiresAt" = Some (VNum 1700003660001) ∧
    (body r !! "imageUrl", body r !! "urlExpiresAt")
      ≠ (attr w' "job-1" "imageUrl", attr w' "job-1" "expiresAt").
Proof.
  eexists _, _. split; [reflexivity|].
  repeat split; try reflexivity. discriminate.
Qed.

(** ** The system as a whole *)


Lemma is_Some_insert_mono {A : Type} (t : gmap string A) (j j' : string) (x : A) :
  is_Some (t !! j') → is_Some (<[j := x]> t !! j').
Proof.
  intros H. destruct (decide (j = j')) as [->|Hne];
    [rewrite lookup_insert_eq; eauto|by rewrite lookup_insert_ne].
Qed.



(** An expiry adds nothing: what is stored or queued afterwards was so
    before. *)
Lemma expires_table (w w' : World) (j : string) (item : Item) :
  expires w w' → table w' !! j = Some item → table w !! j = Some item.
Proof.
  intros [j0 item0 ttl w0 _ _|key w0|i w0]; simpl_world; [|done..].
  intros H. by apply lookup_delete_Some in H as [_ H].
Qed.

Lemma expires_bucket (w w' : World) (key : string) (o : S3Object) :
  expires w w' → bucket w' !! key = Some o → bucket w !! key = Some o.
Proof.
  intros [j0 item0 ttl w0 _ _|key0 w0|i w0]; simpl_world; [done| |done].
  intros H. by apply lookup_delete_Some in H as [_ H].
Qed.

Lemma expires_queue (w w' : World) (m : Message) :
  expires w w' → m ∈ queue w' → m ∈ queue w.
Proof.
  intros [j0 item0 ttl w0 _ _|key0 w0|i w0]; simpl_world; [done..|].
  apply list_elem_of_delete_inv.
Qed.


Lemma strict_eq_str_true (v : option Value) (s : string) :
  strict_eq_str v s = true → v = Some (VStr s).
Proof.
  destruct v as [[| | |t| |]|]; cbn [strict_eq_str]; try discriminate.
  intros H. apply String.eqb_eq in H. by subst.
Qed.


(** A record, once stored, is still stored after an iteration of the worker;
    and the record of the job is stored after it as soon as one of its first
    and last writes is accepted. *)
Lemma process_record_keeps_record (Buffer_from_base64 : string → list byte)
    (m : Message) (sc : Worker.Script) (w : World) (j : string) :
  is_Some (table w !! j) →
  is_Some (table (Worker.process_record Buffer_from_base64 m sc w).2 !! j).
Proof.
  intros H. unfold_worker.
  run_cases; simpl_world; repeat apply is_Some_insert_mono; exact H.
Qed.


Lemma handler_keeps_record (Buffer_from_base64 : string → list byte)
    (records : list (Outcome Message * Worker.Script)) (w : World) (j : string) :
  is_Some (table w !! j) →
  is_Some (table (Worker.handler Buffer_from_base64 records w).2 !! j).
Proof.
  revert w. induction records as [|[[m|e] sc] records IH]; intros w H; [done|..];
    cbn [Worker.handler]; unfold Worker.handle_record, bind, lift; [|done].
  pose proof (process_record_keeps_record Buffer_from_base64 m sc w j H) as Hk.
  destruct (Worker.process_record Buffer_from_base64 m sc w) as [[[]|e] w1];
    cbn [snd] in *; [by apply IH|done].
Qed.


Lemma completed_system_reachable : reachable sample_decoder num_lt completed_system.
Proof.
  unfold reachable, completed_system, submitted_system.
  eapply rtc_l; [apply step_create|].
  apply rtc_once, step_process.
Qed.




(** * Further properties *)

(** ** What a Process invocation leaves alone *)

(** Reading an attribute back through the updates of one invocation. *)
Ltac solve_kept Hl :=
  unfold attr, apply_sets; simpl_world;
  repeat (rewrite ?lookup_insert_eq, ?Hl;
          cbn [default from_option id mbind option_bind foldl fst snd]);
  rewrite ?lookup_insert_ne by congruence; done.

Ltac split_not_elem Hk :=
  repeat (apply not_elem_of_cons in Hk as [? Hk]).

(** X1.  Whatever the collaborators answer, a Process invocation changes no
    attribute of an existing record other than the eleven it may set: the
    [jobId], [productUrl], [createdAt] and [ttl] written by Create stay as
    they are. *)
Theorem process_keeps_other_attributes
    (Buffer_from_base64 : string → list byte)
    (m : Message) (sc : Worker.Script) (w : World) (item : Item) (k : string) :
  table w !! msg_jobId m = Some item →
  k ∉ worker_attributes →
  attr (Worker.process_record Buffer_from_base64 m sc w).2 (msg_jobId m) k
    = item !! k.
Proof.
  intros Hl Hk. unfold worker_attributes in Hk. split_not_elem Hk.
  unfold_worker. run_cases; solve_kept Hl.
Qed.

Ltac eval_attr_in H Hl :=
  unfold status_of, attr, apply_sets in H;
  cbn [fst snd table queue bucket trace log with_table with_queue with_bucket] in H;
  repeat (rewrite ?lookup_insert_eq, ?Hl in H;
          cbn [default from_option id mbind option_bind foldl fst snd] in H);
  rewrite ?lookup_insert_ne in H by congruence;
  rewrite ?lookup_insert_eq in H.

(** X2.  A run that leaves the record [failed] has changed nothing but
    [status], [error] and [failedAt]: the link, file name and other fields of
    an earlier completed run are still stored. *)
Theorem failed_run_keeps_artifact_fields
    (Buffer_from_base64 : string → list byte)
    (m : Message) (sc : Worker.Script) (w : World) (item : Item) (k : string) :
  table w !! msg_jobId m = Some item →
  status_of (Worker.process_record Buffer_from_base64 m sc w).2 (msg_jobId m)
    = Some (VStr "failed") →
  k ∉ failure_attributes →
  attr (Worker.process_record Buffer_from_base64 m sc w).2 (msg_jobId m) k
    = item !! k.
Proof.
  intros Hl Hst Hk. unfold failure_attributes in Hk. split_not_elem Hk.
  revert Hst. unfold_worker.
  run_cases; intros Hst; eval_attr_in Hst Hl; try discriminate; solve_kept Hl.
Qed.

(** X3.  A run that leaves the record [completed] has changed neither
    [error] nor [failedAt] (nor anything outside the nine attributes of the
    write of [completed]): the error of an earlier failed attempt is still
    stored on the completed record. *)
Theorem completed_run_keeps_error_fields
    (Buffer_from_base64 : string → list byte)
    (m : Message) (sc : Worker.Script) (w : World) (item : Item) (k : string) :
  table w !! msg_jobId m = Some item →
  status_of (Worker.process_record Buffer_from_base64 m sc w).2 (msg_jobId m)
    = Some (VStr "completed") →
  k ∉ success_attributes →
  attr (Worker.process_record Buffer_from_base64 m sc w).2 (msg_jobId m) k
    = item !! k.
Proof.
  intros Hl Hst Hk. unfold success_attributes in Hk. split_not_elem Hk.
  revert Hst. unfold_worker.
  run_cases; intros Hst; eval_attr_in Hst Hl; try discriminate; solve_kept Hl.
Qed.

Lemma process_keeps_other_attributes_witness :
  attr (Worker.process_record sample_decoder widget_message (success_script "/9j/")
          (world submitted_system)).2 "job-1" "createdAt"
    = Some (VNum 1700000000000).
Proof.
  exact (process_keeps_other_attributes sample_decoder widget_message
           (success_script "/9j/") (world submitted_system)
           (pending_item "job-1" widget_url (create_script None)) "createdAt"
           eq_refl ltac:(apply (bool_decide_unpack _); vm_compute; exact I)).
Defined.

Lemma failed_run_keeps_artifact_fields_witness :
  attr (Worker.process_record sample_decoder widget_message
          (scrape_failure_script "timeout of 10000ms exceeded" None)
          completed_world).2 "job-1" "imageUrl"
    = Some (VStr "https://bucket.s3/job-1?sig=1").
Proof.
  exact (failed_run_keeps_artifact_fields sample_decoder widget_message
           (scrape_failure_script "timeout of 10000ms exceeded" None)
           completed_world (default ∅ (table completed_world !! "job-1")) "imageUrl"
           eq_refl eq_refl
           ltac:(apply (bool_decide_unpack _); vm_compute; exact I)).
Defined.

Lemma completed_run_keeps_error_fields_witness :
  attr (Worker.process_record sample_decoder widget_message (success_script "/9j/")
          (world failed_system)).2 "job-1" "error"
    = Some (VStr "timeout of 10000ms exceeded").
Proof.
  exact (completed_run_keeps_error_fields sample_decoder widget_message
           (success_script "/9j/") (world failed_system)
           (default ∅ (table (world failed_system) !! "job-1")) "error"
           eq_refl eq_refl
           ltac:(apply (bool_decide_unpack _); vm_compute; exact I)).
Defined.

(** ** Batches *)

Lemma process_record_escape (Buffer_from_base64 : string → list byte)
    (m : Message) (sc : Worker.Script) (w w' : World) (e : string) :
  Worker.process_record Buffer_from_base64 m sc w = (Throw e, w') →
  Worker.upd_failed sc = Some e.
Proof.
  unfold_worker. run_cases; intros H; try discriminate; by injection H as -> _.
Qed.

(** X4.  An error leaves the worker for one of two reasons only: the body of
    a record does not parse into a job id and a URL (it is not JSON, or is
    [null]), or the write of [failed] is rejected.  When the handler throws
    [e], a record of the batch has a body whose parse throws [e] or had its
    write of [failed] rejected with [e]. *)
Theorem escaped_error_is_parse_or_rejected_write
    (Buffer_from_base64 : string → list byte)
    (records : list (Outcome Message * Worker.Script)) (w w' : World) (e : string) :
  Worker.handler Buffer_from_base64 records w = (Throw e, w') →
  ∃ parsed sc,
    (parsed, sc) ∈ records ∧
    (parsed = Throw e ∨ ∃ m, parsed = Ok m ∧ Worker.upd_failed sc = Some e).
Proof.
  revert w. induction records as [|[parsed sc] records IH]; intros w H; [done|].
  cbn [Worker.handler] in H. unfold Worker.handle_record, bind, lift in H.
  destruct parsed as [m|e0].
  - destruct (Worker.process_record Buffer_from_base64 m sc w) as [[[]|e1] w1] eqn:Hm.
    + destruct (IH _ H) as (parsed' & sc' & Hin & Hf).
      exists parsed', sc'. split; [by apply list_elem_of_further|done].
    + injection H as -> ->. exists (Ok m), sc.
      split; [apply list_elem_of_here|]. right. exists m.
      split; [done|]. by eapply process_record_escape.
  - injection H as -> ->. exists (Throw e), sc.
    split; [apply list_elem_of_here|by left].
Qed.

Lemma escaped_error_is_parse_or_rejected_write_witness :
  ∃ parsed sc,
    (parsed, sc) ∈ [(Ok widget_message, success_script "/9j/");
                    (Throw "Unexpected end of JSON input", success_script "/9j/");
                    (Ok ghost_message, success_script "/9j/")] ∧
    (parsed = Throw "Unexpected end of JSON input"
     ∨ ∃ m, parsed = Ok m ∧ Worker.upd_failed sc = Some "Unexpected end of JSON input").
Proof.
  exact (escaped_error_is_parse_or_rejected_write sample_decoder
           [(Ok widget_message, success_script "/9j/");
            (Throw "Unexpected end of JSON input", success_script "/9j/");
            (Ok ghost_message, success_script "/9j/")]
           (world submitted_system) _ "Unexpected end of JSON input" eq_refl).
Defined.

(** A record whose body does not parse ends the invocation where it stands:
    the records before it are processed, nothing is issued for it, and the
    records after it are not touched. *)
Example unparsable_record_ends_the_batch :
  ∃ w',
    Worker.handler sample_decoder
      [(Ok widget_message, success_script "/9j/");
       (Throw "Unexpected end of JSON input", success_script "/9j/");
       (Ok ghost_message, success_script "/9j/")]
      (world submitted_system) = (Throw "Unexpected end of JSON input", w') ∧
    status_of w' "job-1" = Some (VStr "completed") ∧
    table w' !! "ghost" = None.
Proof. eexists. split; [reflexivity|]. split; reflexivity. Qed.

Lemma process_record_keeps_terminal (Buffer_from_base64 : string → list byte)
    (m : Message) (sc : Worker.Script) (w : World) (j : string) :
  Worker.upd_failed sc = None →
  terminal (status_of w j) →
  terminal (status_of (Worker.process_record Buffer_from_base64 m sc w).2 j).
Proof.
  intros Hf Ht. destruct (decide (j = msg_jobId m)) as [->|Hne].
  - destruct (process_record_terminal Buffer_from_base64 m sc w Hf) as (w' & -> & H).
    exact H.
  - unfold status_of, attr in *.
    by rewrite process_record_other.
Qed.

Lemma handler_keeps_terminal (Buffer_from_base64 : string → list byte)
    (records : list (Outcome Message * Worker.Script)) (w : World) (j : string) :
  Forall settled records →
  terminal (status_of w j) →
  ∃ w', Worker.handler Buffer_from_base64 records w = (Ok tt, w') ∧
        terminal (status_of w' j).
Proof.
  revert w. induction records as [|[parsed sc] records IH]; intros w Hall Ht.
  - by exists w.
  - apply Forall_cons in Hall as [[[m Hm] Hf] Hall]. cbn [fst snd] in Hm, Hf.
    subst parsed.
    cbn [Worker.handler]. unfold Worker.handle_record, bind, lift.
    pose proof (process_record_keeps_terminal Buffer_from_base64 m sc w j Hf Ht) as Hk.
    destruct (process_record_terminal Buffer_from_base64 m sc w Hf) as (w1 & Hrun & _).
    rewrite Hrun in Hk |- *. by apply IH.
Qed.

(** X5.  When the body of every record parses and no write of [failed] is
    rejected, the handler works through the whole batch and returns
    normally, and the job of every record of the batch is left in a terminal
    state, also when several records carry the same job id. *)
Theorem batch_ends_with_terminal_jobs
    (Buffer_from_base64 : string → list byte)
    (records : list (Outcome Message * Worker.Script)) (w : World) :
  Forall settled records →
  ∃ w', Worker.handler Buffer_from_base64 records w = (Ok tt, w') ∧
        Forall (λ j, terminal (status_of w' j)) (carried records).
Proof.
  revert w. induction records as [|[parsed sc] records IH]; intros w Hall.
  - exists w. by split.
  - apply Forall_cons in Hall as [[[m Hm] Hf] Hall]. cbn [fst snd] in Hm, Hf.
    subst parsed.
    destruct (process_record_terminal Buffer_from_base64 m sc w Hf) as (w1 & Hrun & Ht).
    destruct (handler_keeps_terminal Buffer_from_base64 records w1 (msg_jobId m) Hall Ht)
      as (w2 & Hrest & Ht2).
    destruct (IH w1 Hall) as (w2' & Hrest' & Hall2).
    rewrite Hrest in Hrest'. injection Hrest' as <-.
    exists w2. cbn [Worker.handler]. unfold Worker.handle_record, bind, lift.
    rewrite Hrun.
    split; [exact Hrest|]. unfold carried. cbn [omap list_omap fst].
    by apply Forall_cons.
Qed.

Lemma batch_ends_with_terminal_jobs_witness :
  ∃ w',
    Worker.handler sample_decoder
      [(Ok widget_message, success_script "/9j/");
       (Ok ghost_message, scrape_failure_script "timeout of 10000ms exceeded" None);
       (Ok widget_message, scrape_failure_script "timeout of 10000ms exceeded" None)]
      (world submitted_system) = (Ok tt, w') ∧
    Forall (λ j, terminal (status_of w' j)) ["job-1"; "ghost"; "job-1"].
Proof.
  apply (batch_ends_with_terminal_jobs sample_decoder
           [(Ok widget_message, success_script "/9j/");
            (Ok ghost_message, scrape_failure_script "timeout of 10000ms exceeded" None);
            (Ok widget_message, scrape_failure_script "timeout of 10000ms exceeded" None)]).
  repeat (apply Forall_cons; split; [split; [by eexists|reflexivity]|]).
  apply Forall_nil_2.
Defined.

(** ** Invariants of the reachable states *)

(** A property of the world that each handler preserves, and each expiry
    that satisfies [keep], holds in every state reached by steps that satisfy
    [keep]. *)
Lemma kept_invariant (keep : World → World → Prop)
    (Buffer_from_base64 : string → list byte)
    (js_lt : Value → Z → bool) (P : World → Prop) :
  P (world initial) →
  (∀ parsed sc w, P w → P (Receiver.handler parsed sc w).2) →
  (∀ m sc w, P w → P (Worker.process_record Buffer_from_base64 m sc w).2) →
  (∀ jobId sc w, P w → P (Responder.handler js_lt jobId sc w).2) →
  (∀ w w', expires w w' → keep w w' → P w → P w') →
  ∀ s, reachable_keeping keep Buffer_from_base64 js_lt s → P (world s).
Proof.
  intros H0 Hc Hp Hr Hx s H.
  refine (rtc_ind_r
            (R := λ s1 s2, step Buffer_from_base64 js_lt s1 s2
                           ∧ keep (world s1) (world s2))
            (λ s, P (world s)) initial H0 _ s H).
  clear s H. intros s1 s2 _ [Hst Hk] IH.
  destruct Hst as [parsed sc s1|records s1|jobId sc s1|s1 w' He];
    cbn [after_create after_process after_status world] in *;
    [by apply Hc| |by apply Hr|by eapply Hx].
  clear Hk. revert IH. generalize (world s1). clear s1.
  induction records as [|[[m|e] sc] records IHr]; intros w Hw; [done|..];
    cbn [Worker.handler]; unfold Worker.handle_record, bind, lift; [|done].
  specialize (Hp m sc w Hw).
  destruct (Worker.process_record Buffer_from_base64 m sc w) as [[[]|e] w1];
    cbn [snd] in *; [by apply IHr|done].
Qed.

(** A property of the world that each handler and each expiry preserves
    holds in every reachable state. *)
Lemma reachable_invariant (Buffer_from_base64 : string → list byte)
    (js_lt : Value → Z → bool) (P : World → Prop) :
  P (world initial) →
  (∀ parsed sc w, P w → P (Receiver.handler parsed sc w).2) →
  (∀ m sc w, P w → P (Worker.process_record Buffer_from_base64 m sc w).2) →
  (∀ jobId sc w, P w → P (Responder.handler js_lt jobId sc w).2) →
  (∀ w w', expires w w' → P w → P w') →
  ∀ s, reachable Buffer_from_base64 js_lt s → P (world s).
Proof.
  intros H0 Hc Hp Hr Hx s H.
  apply (kept_invariant (λ _ _, True) Buffer_from_base64 js_lt P H0 Hc Hp Hr);
    [intros w w' He _; by apply Hx|].
  unfold reachable_keeping. unfold reachable in H.
  refine (rtc_subrel _ _ _ _ _ H). by intros s1 s2 Hst.
Qed.

Lemma apply_sets_is_Some (sets : list (string * Value)) (item : Item) (k : string) :
  is_Some (apply_sets item sets !! k) → k ∈ sets.*1 ∨ is_Some (item !! k).
Proof.
  revert item. induction sets as [|[k' v] sets IH]; intros item H; [by right|].
  change (apply_sets item ((k', v) :: sets))
    with (apply_sets (<[k' := v]> item) sets) in H.
  destruct (IH _ H) as [Hin|Hs].
  - left. rewrite fmap_cons. by apply list_elem_of_further.
  - destruct (decide (k' = k)) as [->|Hne].
    + left. rewrite fmap_cons. apply list_elem_of_here.
    + right. by rewrite lookup_insert_ne in Hs.
Qed.

Lemma put_ok (t : gmap string Item) (j : string) (item : Item) :
  table_ok t → record_ok j item → table_ok (<[j := item]> t).
Proof.
  intros Ht Hi j' item' Hl. destruct (decide (j = j')) as [<-|Hne].
  - rewrite lookup_insert_eq in Hl. by injection Hl as <-.
  - rewrite lookup_insert_ne in Hl by done. by apply Ht.
Qed.

Lemma update_ok (t : gmap string Item) (j : string) (sets : list (string * Value)) :
  table_ok t →
  sets_ok sets →
  table_ok (<[j := apply_sets (default {["jobId" := VStr j]} (t !! j)) sets]> t).
Proof.
  intros Ht (Hkeys & status & rest & -> & Hrest & Hstatus).
  apply put_ok; [done|].
  assert (Hbase : (default {["jobId" := VStr j]} (t !! j) : Item) !! "jobId"
                  = Some (VStr j) ∧
                  ∀ k, is_Some ((default {["jobId" := VStr j]} (t !! j) : Item) !! k) →
                       k ∈ attribute_names).
  { destruct (t !! j) as [item|] eqn:Hl; cbn [default from_option id].
    - destruct (Ht j item Hl) as (H1 & _ & H3). by split.
    - split; [apply lookup_singleton_eq|].
      intros k [v Hv]. apply lookup_singleton_Some in Hv as [<- _].
      apply list_elem_of_here. }
  destruct Hbase as [Hj Hnames].
  split; [|split].
  - rewrite apply_sets_other; [done|].
    intros Hin. apply list_elem_of_fmap in Hin as ([k v] & Hk & Hin).
    cbn [fst] in Hk. subst k.
    rewrite List.Forall_forall in Hkeys.
    apply list_elem_of_In in Hin. specialize (Hkeys _ Hin). cbn [fst] in Hkeys.
    revert Hkeys. apply (bool_decide_unpack _). vm_compute. exact I.
  - exists status. split; [by apply apply_sets_head|done].
  - intros k Hk. apply apply_sets_is_Some in Hk as [Hin|Hs]; [|by apply Hnames].
    apply list_elem_of_fmap in Hin as ([k' v] & Hk & Hin).
    cbn [fst] in Hk. subst k'.
    rewrite List.Forall_forall in Hkeys.
    apply list_elem_of_In in Hin. specialize (Hkeys _ Hin). cbn [fst] in Hkeys.
    unfold attribute_names. apply elem_of_app. by right.
Qed.

Ltac solve_sets_ok :=
  split;
  [repeat (apply List.Forall_cons;
           [apply (bool_decide_unpack _); vm_compute; exact I|]);
   apply List.Forall_nil
  |eexists _, _; split; [reflexivity|];
   split; apply (bool_decide_unpack _); vm_compute; exact I].

Lemma process_record_table_ok (Buffer_from_base64 : string → list byte)
    (m : Message) (sc : Worker.Script) (w : World) :
  table_ok (table w) →
  table_ok (table (Worker.process_record Buffer_from_base64 m sc w).2).
Proof.
  intros Hw. unfold_worker.
  run_cases; simpl_world; repeat (apply update_ok; [|solve_sets_ok]); done.
Qed.

Lemma pending_item_ok (jobId : string) (productUrl : option Value)
    (sc : Receiver.Script) :
  record_ok jobId (pending_item jobId productUrl sc).
Proof.
  unfold pending_item.
  split; [|split].
  - rewrite lookup_set_prop_ne by done.
    rewrite !lookup_insert_ne by done. apply lookup_insert_eq.
  - exists "pending". rewrite lookup_set_prop_ne by done.
    rewrite !lookup_insert_ne by done. rewrite lookup_insert_eq.
    split; [done|]. apply list_elem_of_here.
  - intros k Hk.
    destruct (decide (k = "productUrl")) as [->|H1];
      [apply (bool_decide_unpack _); vm_compute; exact I|].
    rewrite lookup_set_prop_ne in Hk by done.
    destruct (decide (k = "ttl")) as [->|H2];
      [apply (bool_decide_unpack _); vm_compute; exact I|].
    rewrite lookup_insert_ne in Hk by done.
    destruct (decide (k = "createdAt")) as [->|H3];
      [apply (bool_decide_unpack _); vm_compute; exact I|].
    rewrite lookup_insert_ne in Hk by done.
    destruct (decide (k = "status")) as [->|H4];
      [apply (bool_decide_unpack _); vm_compute; exact I|].
    rewrite lookup_insert_ne in Hk by done.
    destruct (decide (k = "jobId")) as [->|H5];
      [apply (bool_decide_unpack _); vm_compute; exact I|].
    rewrite lookup_insert_ne, lookup_empty in Hk by done.
    by destruct Hk.
Qed.

Lemma receiver_table_ok (parsed : Outcome Value) (sc : Receiver.Script) (w : World) :
  table_ok (table w) →
  table_ok (table (Receiver.handler parsed sc w).2).
Proof.
  intros Hw.
  unfold Receiver.handler, PutCommand, SendMessageCommand, try_catch, bind,
    call, lift, ret.
  run_cases; simpl_world; try done;
    apply put_ok; try done; apply pending_item_ok.
Qed.

(** The records of every reachable state are well formed. *)
Lemma reachable_table_ok (Buffer_from_base64 : string → list byte)
    (js_lt : Value → Z → bool) (s : System) :
  reachable Buffer_from_base64 js_lt s → table_ok (table (world s)).
Proof.
  apply (reachable_invariant Buffer_from_base64 js_lt (λ w, table_ok (table w))).
  - intros j item Hl. unfold initial in Hl. cbn [world table] in Hl.
    by rewrite lookup_empty in Hl.
  - apply receiver_table_ok.
  - apply process_record_table_ok.
  - intros jobId sc w Hw. by rewrite responder_table.
  - intros w w' He Hw j item Hl. by eapply Hw, expires_table.
Qed.

(** X7.  In every reachable state each stored record carries its own key as
    [jobId] and a [status] that is one of pending, processing, completed and
    failed. *)
Theorem stored_records_have_key_and_status
    (Buffer_from_base64 : string → list byte) (js_lt : Value → Z → bool)
    (s : System) (j : string) (item : Item) :
  reachable Buffer_from_base64 js_lt s →
  table (world s) !! j = Some item →
  item !! "jobId" = Some (VStr j) ∧
  ∃ status, item !! "status" = Some (VStr status) ∧ status ∈ statuses.
Proof.
  intros Hs Hl.
  destruct (reachable_table_ok _ _ _ Hs j item Hl) as (H1 & H2 & _). by split.
Qed.

Lemma stored_records_have_key_and_status_witness :
  let item := default ∅ (table (world completed_system) !! "job-1") in
  item !! "jobId" = Some (VStr "job-1") ∧
  ∃ status, item !! "status" = Some (VStr status) ∧ status ∈ statuses.
Proof.
  exact (stored_records_have_key_and_status sample_decoder num_lt completed_system
           "job-1" _ completed_system_reachable eq_refl).
Defined.

(** X8.  No handler ever stores an [overlayText]: in every reachable state
    the response to a status read, whatever the job and its status, has no
    [overlayText] field. *)
Theorem responses_never_carry_overlayText
    (Buffer_from_base64 : string → list byte) (js_lt : Value → Z → bool)
    (s : System) (jobId : option string) (sc : Responder.Script) :
  reachable Buffer_from_base64 js_lt s →
  ∃ r w',
    Responder.handler js_lt jobId sc (world s) = (Ok r, w') ∧
    body r !! "overlayText" = None.
Proof.
  intros Hs. pose proof (reachable_table_ok _ _ _ Hs) as Hok.
  destruct jobId as [j|]; [|eexists _, _; split; reflexivity].
  destruct (decide (j = "")) as [->|Hne]; [eexists _, _; split; reflexivity|].
  destruct (Responder.get_fault sc) as [e|] eqn:Hg.
  { rewrite (responder_get_rejected js_lt j e sc _ Hne Hg).
    eexists _, _. split; reflexivity. }
  destruct (table (world s) !! j) as [job|] eqn:Hl.
  2:{ rewrite (responder_not_found js_lt j sc _ Hne Hg Hl).
      eexists _, _. split; reflexivity. }
  assert (Ho : job !! "overlayText" = None).
  { destruct (Hok j job Hl) as (_ & _ & Hnames).
    destruct (job !! "overlayText") eqn:Hov; [|done].
    exfalso. assert (Hin : "overlayText" ∈ attribute_names) by (apply Hnames; eauto).
    revert Hin. apply (bool_decide_unpack _). vm_compute. exact I. }
  destruct (strict_eq_str (job !! "status") "completed") eqn:Hc.
  - apply strict_eq_str_true in Hc.
    rewrite (responder_completed js_lt j sc _ job Hne Hg Hl Hc). cbv zeta.
    destruct (negb (truthy (job !! "imageUrl")) || js_lt _ _);
      [destruct (truthy (job !! "fileName"));
       [destruct (Responder.presign sc) as [u|e]|]|];
      eexists _, _; (split; [reflexivity|]);
      try reflexivity;
      unfold completed_response; cbn [body];
      rewrite !lookup_set_prop_ne by done; rewrite lookup_set_prop_eq; exact Ho.
  - apply String.eqb_neq in Hne.
    unfold_responder. rewrite Hne, Hg, Hl, Hc. cbv beta iota zeta.
    destruct (strict_eq_str (job !! "status") "failed");
      [|destruct (strict_eq_str (job !! "status") "processing")];
      (eexists _, _; split; [reflexivity|]); cbn [body];
      rewrite ?lookup_set_prop_ne by done; rewrite ?lookup_insert_ne by done;
      rewrite ?lookup_set_prop_ne by done; apply lookup_empty.
Qed.

Lemma responses_never_carry_overlayText_witness :
  ∃ r w',
    Responder.handler num_lt (Some "job-1") (read_script 1700000100000 (Ok ""))
      (world completed_system) = (Ok r, w') ∧
    body r !! "overlayText" = None.
Proof.
  exact (responses_never_carry_overlayText sample_decoder num_lt completed_system
           (Some "job-1") (read_script 1700000100000 (Ok ""))
           completed_system_reachable).
Defined.

Lemma artifacts_bucket_insert (t : gmap string Item) (b : gmap string S3Object)
    (f : string) (o : S3Object) :
  artifacts_stored t b → artifacts_stored t (<[f := o]> b).
Proof.
  intros H j item Hl Hs. destruct (H j item Hl Hs) as (f' & Hf & Hb).
  exists f'. split; [done|].
  destruct (decide (f = f')) as [->|Hne];
    [rewrite lookup_insert_eq; eauto|by rewrite lookup_insert_ne].
Qed.

Lemma artifacts_put (t : gmap string Item) (b : gmap string S3Object)
    (j : string) (item : Item) :
  artifacts_stored t b →
  item !! "status" ≠ Some (VStr "completed") →
  artifacts_stored (<[j := item]> t) b.
Proof.
  intros H Hi j' item' Hl Hs. destruct (decide (j = j')) as [<-|Hne].
  - rewrite lookup_insert_eq in Hl. injection Hl as <-. contradiction.
  - rewrite lookup_insert_ne in Hl by done. by eapply H.
Qed.

Lemma artifacts_update_other (t : gmap string Item) (b : gmap string S3Object)
    (j : string) (sets rest : list (string * Value)) (status : string) :
  artifacts_stored t b →
  sets = ("status", VStr status) :: rest →
  ("status" ∉ rest.*1) →
  status ≠ "completed" →
  artifacts_stored
    (<[j := apply_sets (default {["jobId" := VStr j]} (t !! j)) sets]> t) b.
Proof.
  intros H -> Hrest Hne. apply artifacts_put; [done|].
  rewrite apply_sets_head by done. congruence.
Qed.

Lemma artifacts_update_completed (t : gmap string Item) (b : gmap string S3Object)
    (j : string) (sets : list (string * Value)) (f : string) :
  artifacts_stored t b →
  (∀ base, apply_sets base sets !! "fileName" = Some (VStr f)) →
  is_Some (b !! f) →
  artifacts_stored
    (<[j := apply_sets (default {["jobId" := VStr j]} (t !! j)) sets]> t) b.
Proof.
  intros H Hf Hb j' item' Hl Hs. destruct (decide (j = j')) as [<-|Hne].
  - rewrite lookup_insert_eq in Hl. injection Hl as <-. eauto.
  - rewrite lookup_insert_ne in Hl by done. by eapply H.
Qed.

Lemma process_record_artifacts (Buffer_from_base64 : string → list byte)
    (m : Message) (sc : Worker.Script) (w : World) :
  artifacts_stored (table w) (bucket w) →
  artifacts_stored (table (Worker.process_record Buffer_from_base64 m sc w).2)
    (bucket (Worker.process_record Buffer_from_base64 m sc w).2).
Proof.
  intros Hw. unfold_worker.
  run_cases; simpl_world;
    repeat first
      [ assumption
      | eapply artifacts_update_other;
          [ | reflexivity
            | solve [apply (bool_decide_unpack _); vm_compute; exact I]
            | solve [discriminate] ]
      | eapply artifacts_update_completed;
          [ | intros base; unfold apply_sets; cbn [foldl fst snd];
              rewrite !lookup_insert_ne by done; apply lookup_insert_eq
            | rewrite lookup_insert_eq; eauto ]
      | apply artifacts_bucket_insert ].
Qed.

Lemma receiver_artifacts (parsed : Outcome Value) (sc : Receiver.Script) (w : World) :
  artifacts_stored (table w) (bucket w) →
  artifacts_stored (table (Receiver.handler parsed sc w).2)
    (bucket (Receiver.handler parsed sc w).2).
Proof.
  intros Hw.
  unfold Receiver.handler, PutCommand, SendMessageCommand, try_catch, bind,
    call, lift, ret.
  run_cases; simpl_world; try done;
    (apply artifacts_put; [done|]);
    rewrite lookup_set_prop_ne by done;
    rewrite !lookup_insert_ne by done; rewrite lookup_insert_eq; discriminate.
Qed.

(** X9.  As long as no object has left the bucket, a record with status
    [completed] names a [fileName] under which the bucket holds an object:
    [completed] is never written before the upload went through.  This holds
    in every state reached by the handlers, by expiry of records and by
    removal of messages; the expiry of an object ends it (see
    [expired_object_leaves_completed_record]). *)
Theorem completed_record_has_its_artifact
    (Buffer_from_base64 : string → list byte) (js_lt : Value → Z → bool)
    (s : System) (j : string) (item : Item) :
  reachable_keeping keeps_objects Buffer_from_base64 js_lt s →
  table (world s) !! j = Some item →
  item !! "status" = Some (VStr "completed") →
  ∃ fileName,
    item !! "fileName" = Some (VStr fileName) ∧
    is_Some (bucket (world s) !! fileName).
Proof.
  intros Hs. revert j item.
  apply (kept_invariant keeps_objects Buffer_from_base64 js_lt
           (λ w, artifacts_stored (table w) (bucket w))); [| | | | |exact Hs].
  - intros j item Hl. unfold initial in Hl. cbn [world table] in Hl.
    by rewrite lookup_empty in Hl.
  - apply receiver_artifacts.
  - apply process_record_artifacts.
  - intros jobId sc w Hw.
    by destruct (responder_frame js_lt jobId sc w) as (r & calls & -> & _).
  - intros w w' He Hk Hw j item Hl Hst.
    apply (expires_table _ _ _ _ He) in Hl.
    destruct (Hw j item Hl Hst) as (fileName & Hf & Hb).
    exists fileName. split; [done|]. by apply Hk.
Qed.

Lemma completed_system_keeps_objects :
  reachable_keeping keeps_objects sample_decoder num_lt completed_system.
Proof.
  unfold reachable_keeping, completed_system, submitted_system.
  eapply rtc_l; [split; [apply step_create|]|apply rtc_once; split; [apply step_process|]];
    intros key [o H]; exfalso; revert H; vm_compute; discriminate.
Qed.

Lemma completed_record_has_its_artifact_witness :
  ∃ fileName,
    default ∅ (table (world completed_system) !! "job-1") !! "fileName"
      = Some (VStr fileName) ∧
    is_Some (bucket (world completed_system) !! fileName).
Proof.
  exact (completed_record_has_its_artifact sample_decoder num_lt completed_system
           "job-1" _ completed_system_keeps_objects eq_refl eq_refl).
Defined.

(** With the expiry of objects the record outlives its file: job-1 is
    completed, its image is deleted, and the record still names it. *)
Example expired_object_leaves_completed_record :
  let s := {| world := with_bucket (delete "job-1.jpg") (world completed_system);
              known := known completed_system |} in
  reachable sample_decoder num_lt s ∧
  status_of (world s) "job-1" = Some (VStr "completed") ∧
  attr (world s) "job-1" "fileName" = Some (VStr "job-1.jpg") ∧
  bucket (world s) !! "job-1.jpg" = None.
Proof.
  split; [|by vm_compute].
  eapply rtc_r; [exact completed_system_reachable|].
  apply step_expiry, object_expires.
Qed.

Lemma process_record_queue_backed (Buffer_from_base64 : string → list byte)
    (m : Message) (sc : Worker.Script) (w : World) :
  queue_backed w →
  queue_backed (Worker.process_record Buffer_from_base64 m sc w).2.
Proof.
  intros Hw. unfold queue_backed. unfold_worker.
  run_cases; simpl_world; intros m' Hm';
    repeat apply is_Some_insert_mono; by apply Hw.
Qed.

Lemma receiver_queue_backed (parsed : Outcome Value) (sc : Receiver.Script) (w : World) :
  queue_backed w →
  queue_backed (Receiver.handler parsed sc w).2.
Proof.
  intros Hw. unfold queue_backed.
  unfold Receiver.handler, PutCommand, SendMessageCommand, try_catch, bind,
    call, lift, ret.
  run_cases; simpl_world; intros m' Hm'; try (by apply Hw);
    try (apply is_Some_insert_mono; by apply Hw).
  apply elem_of_app in Hm' as [Hm'|Hm'].
  - apply is_Some_insert_mono. by apply Hw.
  - apply list_elem_of_singleton in Hm' as ->. cbn [msg_jobId].
    rewrite lookup_insert_eq. eauto.
Qed.

(** X10.  As long as no record has left the table, each work item in the
    queue has a record: Create sends the message only after the put of the
    record was accepted, and no handler removes a record.  This holds in
    every state reached by the handlers, by expiry of objects and by removal
    of messages; the expiry of a record ends it (see
    [expired_record_leaves_queued_item]). *)
Theorem queued_work_items_have_records
    (Buffer_from_base64 : string → list byte) (js_lt : Value → Z → bool)
    (s : System) (m : Message) :
  reachable_keeping keeps_records Buffer_from_base64 js_lt s →
  m ∈ queue (world s) →
  is_Some (table (world s) !! msg_jobId m).
Proof.
  intros Hs. revert m.
  apply (kept_invariant keeps_records Buffer_from_base64 js_lt queue_backed);
    [| | | | |exact Hs].
  - intros m Hm. unfold initial in Hm. cbn [world queue] in Hm.
    by apply elem_of_nil in Hm.
  - apply receiver_queue_backed.
  - apply process_record_queue_backed.
  - intros jobId sc w Hw.
    by destruct (responder_frame js_lt jobId sc w) as (r & calls & -> & _).
  - intros w w' He Hk Hw m Hm. apply Hk, Hw. by eapply expires_queue.
Qed.

Lemma completed_system_keeps_records :
  reachable_keeping keeps_records sample_decoder num_lt completed_system.
Proof.
  unfold reachable_keeping, completed_system, submitted_system.
  eapply rtc_l; [split; [apply step_create|]|apply rtc_once; split; [apply step_process|]].
  - intros j [item H]. exfalso. revert H. vm_compute. discriminate.
  - intros j. cbn [after_process world]. apply handler_keeps_record.
Qed.

Lemma queued_work_items_have_records_witness :
  is_Some (table (world completed_system) !! "job-1").
Proof.
  refine (queued_work_items_have_records sample_decoder num_lt completed_system
            widget_message completed_system_keeps_records _).
  exact (list_elem_of_here widget_message []).
Defined.

(** With the expiry of records the work item outlives its record: job-1 is
    submitted, its record expires, and its message is still queued. *)
Example expired_record_leaves_queued_item :
  let s := {| world := with_table (delete "job-1") (world submitted_system);
              known := known submitted_system |} in
  reachable sample_decoder num_lt s ∧
  widget_message ∈ queue (world s) ∧
  table (world s) !! "job-1" = None.
Proof.
  split; [|split; [exact (list_elem_of_here widget_message [])|by vm_compute]].
  eapply rtc_l; [apply (step_create _ _ (Ok widget_body) (create_script None))|].
  apply rtc_once.
  apply (step_expiry _ _ submitted_system).
  apply (record_expires "job-1" (pending_item "job-1" widget_url (create_script None))
           (1700000000001 / 1000 + 86400) (world submitted_system));
    vm_compute; reflexivity.
Qed.


(** ** Responses *)

Lemma set_prop_is_Some (k k' : string) (v : option Value) (o : Object) :
  is_Some (set_prop k' v o !! k) → k = k' ∨ is_Some (o !! k).
Proof.
  intros H. destruct (decide (k = k')) as [->|Hne]; [by left|right].
  by rewrite lookup_set_prop_ne in H.
Qed.

Lemma insert_is_Some (k k' : string) (v : Value) (o : Object) :
  is_Some (<[k' := v]> o !! k) → k = k' ∨ is_Some (o !! k).
Proof.
  intros H. destruct (decide (k = k')) as [->|Hne]; [by left|right].
  by rewrite lookup_insert_ne in H.
Qed.

(** Membership of a field in a list of fields, from the assignments that
    built the body. *)
Ltac solve_fields H :=
  cbn [body completed_response] in H;
  repeat (first [apply set_prop_is_Some in H as [->|H]
                |apply insert_is_Some in H as [->|H]];
          [apply (bool_decide_unpack _); vm_compute; exact I|]);
  rewrite lookup_empty in H; by destruct H.

(** X11.  A status read answered with 200 carries only the fields of the
    record's status: never the [productUrl], [ttl], product name, price or
    offer that are stored, no [error] on a completed job, no link on a job
    that is not completed. *)
Theorem response_has_only_the_fields_of_its_status
    (js_lt : Value → Z → bool) (jobId : string) (sc : Responder.Script)
    (w : World) (job : Item) (k : string) :
  jobId ≠ "" →
  Responder.get_fault sc = None →
  table w !! jobId = Some job →
  ∃ r w',
    Responder.handler js_lt (Some jobId) sc w = (Ok r, w') ∧
    (statusCode r = 200 → is_Some (body r !! k) →
     k ∈ response_fields (job !! "status")).
Proof.
  intros Hne Hg Hl. unfold response_fields.
  destruct (strict_eq_str (job !! "status") "completed") eqn:Hc.
  - pose proof (strict_eq_str_true _ _ Hc) as Hs.
    rewrite (responder_completed js_lt jobId sc w job Hne Hg Hl Hs). cbv zeta.
    destruct (negb (truthy (job !! "imageUrl")) || js_lt _ _);
      [destruct (truthy (job !! "fileName"));
       [destruct (Responder.presign sc) as [u|e]|]|];
      eexists _, _; (split; [reflexivity|]); intros Hcode H;
      try discriminate Hcode; solve_fields H.
  - apply String.eqb_neq in Hne.
    unfold_responder. rewrite Hne, Hg, Hl, Hc. cbv beta iota zeta.
    destruct (strict_eq_str (job !! "status") "failed");
      [|destruct (strict_eq_str (job !! "status") "processing")];
      (eexists _, _; split; [reflexivity|]); intros _ H; solve_fields H.
Qed.

Lemma response_has_only_the_fields_of_its_status_witness :
  ∃ r w',
    Responder.handler num_lt (Some "job-1") (read_script 1700000100000 (Ok ""))
      (world failed_system) = (Ok r, w') ∧
    (statusCode r = 200 → is_Some (body r !! "productUrl") →
     "productUrl" ∈ ["jobId"; "status"; "createdAt"; "error"; "failedAt"]).
Proof.
  exact (response_has_only_the_fields_of_its_status num_lt "job-1"
           (read_script 1700000100000 (Ok "")) (world failed_system)
           (default ∅ (table (world failed_system) !! "job-1")) "productUrl"
           ltac:(discriminate) eq_refl eq_refl).
Defined.

(** X12.  A submission whose record was put is readable at once: whatever
    the send did afterwards, the status read of the new job id answers 200
    with exactly [jobId], [status] pending and the [createdAt] of the
    record. *)
Theorem created_job_reads_as_pending
    (js_lt : Value → Z → bool) (v : Value) (productUrl : option Value)
    (sc : Receiver.Script) (rs : Responder.Script) (w : World) :
  destructure v "productUrl" = Ok productUrl →
  truthy productUrl = true →
  Receiver.put_fault sc = None →
  Receiver.randomUUID sc ≠ "" →
  Responder.get_fault rs = None →
  (Responder.handler js_lt (Some (Receiver.randomUUID sc)) rs
     (Receiver.handler (Ok v) sc w).2).1
  = Ok {| statusCode := 200;
          body := <["createdAt" := VNum (Receiver.now_createdAt sc)]>
                    (<["status" := VStr "pending"]>
                       (<["jobId" := VStr (Receiver.randomUUID sc)]> ∅)) |}.
Proof.
  intros Hd Hp Hput Hne Hg.
  rewrite (receiver_truthy v productUrl sc w Hd Hp). cbv zeta. rewrite Hput.
  apply String.eqb_neq in Hne.
  destruct productUrl as [p|]; [|discriminate].
  destruct (Receiver.send_fault sc); cbn [snd];
    unfold_responder; rewrite Hne, Hg; cbv beta iota zeta;
    simpl_world; rewrite lookup_insert_eq; reflexivity.
Qed.

Lemma created_job_reads_as_pending_witness :
  (Responder.handler num_lt (Some "job-1") (read_script 1700000000500 (Ok ""))
     (Receiver.handler (Ok widget_body) (create_script (Some "queue unavailable"))
        empty_world).2).1
  = Ok {| statusCode := 200;
          body := <["createdAt" := VNum 1700000000000]>
                    (<["status" := VStr "pending"]>
                       (<["jobId" := VStr "job-1"]> ∅)) |}.
Proof.
  exact (created_job_reads_as_pending num_lt widget_body widget_url
           (create_script (Some "queue unavailable"))
           (read_script 1700000000500 (Ok "")) empty_world
           eq_refl eq_refl eq_refl ltac:(discriminate) eq_refl).
Defined.

(** ** Repeated reads *)

Lemma stale_later (job : Item) (now now' : Z) :
  stale job now → now ≤ now' → stale job now'.
Proof.
  intros [H|[(e & He & Hlt)|[Hf H0]]] Hle; [by left| |].
  - right. left. exists e. split; [done|lia].
  - right. right. split; [done|lia].
Qed.

Section RepeatedReads.

Variable js_lt : Value → Z → bool.
Hypothesis js_lt_number : ∀ a n, js_lt (VNum a) n = (a <? n).

(** X13.  While the stored link is at least five minutes from its expiry,
    successive status reads of a completed job give the same response, link
    and expiry included, and none of them signs anything. *)
Theorem reads_in_the_fresh_window_agree
    (jobId : string) (sc1 sc2 : Responder.Script) (w : World) (job : Item) (e : Z) :
  jobId ≠ "" →
  Responder.get_fault sc1 = None →
  Responder.get_fault sc2 = None →
  table w !! jobId = Some job →
  job !! "status" = Some (VStr "completed") →
  truthy (job !! "imageUrl") = true →
  job !! "expiresAt" = Some (VNum e) →
  Responder.now sc1 + 300000 ≤ e →
  Responder.now sc2 + 300000 ≤ e →
  let first := Responder.handler js_lt (Some jobId) sc1 w in
  let second := Responder.handler js_lt (Some jobId) sc2 first.2 in
  first.1 = Ok (completed_response job (job !! "imageUrl") (VNum e)) ∧
  second.1 = first.1 ∧
  trace second.2 = trace w ++ [GetItem jobId; GetItem jobId].
Proof.
  intros Hne Hg1 Hg2 Hl Hs Hi He H1 H2 first second.
  assert (Hread : ∀ sc w0, Responder.get_fault sc = None →
            table w0 !! jobId = Some job → Responder.now sc + 300000 ≤ e →
            Responder.handler js_lt (Some jobId) sc w0
            = (Ok (completed_response job (job !! "imageUrl") (VNum e)),
               log (GetItem jobId) w0)).
  { intros sc w0 Hg Hl0 Hle.
    rewrite (responder_completed js_lt jobId sc w0 job Hne Hg Hl0 Hs). cbv zeta.
    rewrite Hi, He, js_or_number, js_lt_number.
    apply Z.ltb_ge in Hle. by rewrite Hle. }
  subst second first.
  rewrite (Hread sc1 w Hg1 Hl H1). cbn [fst snd].
  rewrite (Hread sc2 (log (GetItem jobId) w) Hg2 Hl H2). cbn [fst snd trace log].
  by rewrite <- app_assoc.
Qed.

(** X14.  Because a renewed link is not stored, a link that is due for
    renewal stays due: every later status read signs a link again and
    returns the one it signed, with its own expiry. *)
Theorem stale_link_is_signed_on_every_read
    (jobId : string) (sc1 sc2 : Responder.Script) (w : World) (job : Item)
    (url1 url2 : string) :
  jobId ≠ "" →
  Responder.get_fault sc1 = None →
  Responder.get_fault sc2 = None →
  table w !! jobId = Some job →
  job !! "status" = Some (VStr "completed") →
  stale job (Responder.now sc1) →
  Responder.now sc1 ≤ Responder.now sc2 →
  truthy (job !! "fileName") = true →
  Responder.presign sc1 = Ok url1 →
  Responder.presign sc2 = Ok url2 →
  let first := Responder.handler js_lt (Some jobId) sc1 w in
  let second := Responder.handler js_lt (Some jobId) sc2 first.2 in
  first.1 = Ok (completed_response job (Some (VStr url1))
                  (VNum (Responder.now sc1 + 3600000))) ∧
  second.1 = Ok (completed_response job (Some (VStr url2))
                   (VNum (Responder.now sc2 + 3600000))) ∧
  trace second.2 =
    trace w ++ [GetItem jobId; GetSignedUrl (job !! "fileName") 3600;
                GetItem jobId; GetSignedUrl (job !! "fileName") 3600].
Proof.
  intros Hne Hg1 Hg2 Hl Hs Hst Hle Hf Hp1 Hp2 first second.
  assert (Hread : ∀ sc w0 u, Responder.get_fault sc = None →
            table w0 !! jobId = Some job → stale job (Responder.now sc) →
            Responder.presign sc = Ok u →
            Responder.handler js_lt (Some jobId) sc w0
            = (Ok (completed_response job (Some (VStr u))
                     (VNum (Responder.now sc + 3600000))),
               log (GetSignedUrl (job !! "fileName") 3600) (log (GetItem jobId) w0))).
  { intros sc w0 u Hg Hl0 Hst0 Hp.
    rewrite (responder_completed js_lt jobId sc w0 job Hne Hg Hl0 Hs). cbv zeta.
    by rewrite (stale_renews js_lt js_lt_number _ _ Hst0), Hf, Hp. }
  subst second first.
  rewrite (Hread sc1 w url1 Hg1 Hl Hst Hp1). cbn [fst snd].
  rewrite (Hread sc2 (log (GetSignedUrl (job !! "fileName") 3600) (log (GetItem jobId) w))
             url2 Hg2 Hl (stale_later _ _ _ Hst Hle) Hp2).
  cbn [fst snd trace log].
  by rewrite <- !app_assoc.
Qed.

End RepeatedReads.

Lemma reads_in_the_fresh_window_agree_witness :
  let job := default ∅ (table completed_world !! "job-1") in
  let first := Responder.handler num_lt (Some "job-1")
                 (read_script 1700000100000 (Ok "")) completed_world in
  let second := Responder.handler num_lt (Some "job-1")
                  (read_script 1700000200000 (Ok "")) first.2 in
  first.1 = Ok (completed_response job (job !! "imageUrl") (VNum 1700003660001)) ∧
  second.1 = first.1 ∧
  trace second.2 = trace completed_world ++ [GetItem "job-1"; GetItem "job-1"].
Proof.
  exact (reads_in_the_fresh_window_agree num_lt (λ a n, eq_refl) "job-1"
           (read_script 1700000100000 (Ok "")) (read_script 1700000200000 (Ok ""))
           completed_world (default ∅ (table completed_world !! "job-1"))
           1700003660001 ltac:(discriminate) eq_refl eq_refl eq_refl eq_refl
           eq_refl eq_refl ltac:(vm_compute; discriminate)
           ltac:(vm_compute; discriminate)).
Defined.

Lemma stale_link_is_signed_on_every_read_witness :
  let job := default ∅ (table completed_world !! "job-1") in
  let first := Responder.handler num_lt (Some "job-1")
                 (read_script 1700003600000 (Ok "https://bucket.s3/job-1?sig=2"))
                 completed_world in
  let second := Responder.handler num_lt (Some "job-1")
                  (read_script 1700003600500 (Ok "https://bucket.s3/job-1?sig=3"))
                  first.2 in
  first.1 = Ok (completed_response job (Some (VStr "https://bucket.s3/job-1?sig=2"))
                  (VNum 1700007200000)) ∧
  second.1 = Ok (completed_response job (Some (VStr "https://bucket.s3/job-1?sig=3"))
                   (VNum 1700007200500)) ∧
  trace second.2 =
    trace completed_world ++
      [GetItem "job-1"; GetSignedUrl (Some (VStr "job-1.jpg")) 3600;
       GetItem "job-1"; GetSignedUrl (Some (VStr "job-1.jpg")) 3600].
Proof.
  refine (stale_link_is_signed_on_every_read num_lt (λ a n, eq_refl) "job-1"
            (read_script 1700003600000 (Ok "https://bucket.s3/job-1?sig=2"))
            (read_script 1700003600500 (Ok "https://bucket.s3/job-1?sig=3"))
            completed_world (default ∅ (table completed_world !! "job-1"))
            "https://bucket.s3/job-1?sig=2" "https://bucket.s3/job-1?sig=3"
            ltac:(discriminate) eq_refl eq_refl eq_refl eq_refl _
            ltac:(vm_compute; discriminate) eq_refl eq_refl eq_refl).
  right. left. exists 1700003660001. split; reflexivity.
Defined.

(** ** From processing to the status read *)

Ltac solve_item :=
  unfold apply_sets; cbn [foldl fst snd];
  rewrite ?lookup_insert_ne by done; rewrite ?lookup_insert_eq; done.

(** The record that a successful invocation leaves. *)
Lemma process_success_record (Buffer_from_base64 : string → list byte)
    (m : Message) (sc : Worker.Script) (w : World)
    (pageContent : Worker.PageContent) (output : list Worker.OutputItem)
    (imageData producturl presignedUrl : string) :
  Worker.upd_processing sc = None →
  Worker.scrape sc = Ok pageContent →
  Worker.synth sc = Ok output →
  Worker.first_image output = Some imageData →
  imageData ≠ "" →
  sanitizeMetadata (msg_productUrl m) = Ok producturl →
  Worker.put_object sc = None →
  Worker.presign sc = Ok presignedUrl →
  Worker.upd_completed sc = None →
  let format := leading_format (Buffer_from_base64 imageData) in
  ∃ w' job,
    Worker.process_record Buffer_from_base64 m sc w = (Ok tt, w') ∧
    table w' !! msg_jobId m = Some job ∧
    job !! "status" = Some (VStr "completed") ∧
    job !! "imageUrl" = Some (VStr presignedUrl) ∧
    job !! "expiresAt" = Some (VNum (Worker.now_expiresAt sc + 3600000)) ∧
    job !! "fileName" = Some (VStr (msg_jobId m +:+ "." +:+ format.1)) ∧
    job !! "contentType" = Some (VStr format.2) ∧
    job !! "completedAt" = Some (VNum (Worker.now_completedAt sc)).
Proof.
  intros H1 H2 H3 H4 H5 H6 H7 H8 H9 format.
  apply String.eqb_neq in H5.
  destruct (sanitizeMetadata_string (Worker.productName pageContent)) as [r1 Hr1].
  destruct (sanitizeMetadata_string (Worker.price pageContent)) as [r2 Hr2].
  unfold_worker.
  rewrite H1, H2, H3, H4, H5, Hr1, Hr2, H6, H7, H8, H9.
  cbv beta iota zeta. rewrite detect_format_leading. fold format.
  eexists _, _. split; [reflexivity|].
  simpl_world. split; [apply lookup_insert_eq|].
  repeat split; solve_item.
Qed.

Section EndToEnd.

Variable Buffer_from_base64 : string → list byte.
Variable js_lt : Value → Z → bool.
Hypothesis js_lt_number : ∀ a n, js_lt (VNum a) n = (a <? n).

(** X15.  After an invocation in which every step succeeded, a status read
    made while the link is at least five minutes from its expiry answers 200
    with status completed, the link that the worker signed, the expiry
    the worker stored, the file name, the content type and the completion
    time, and signs nothing. *)
Theorem processed_job_reads_as_completed
    (m : Message) (sc : Worker.Script) (rs : Responder.Script) (w : World)
    (pageContent : Worker.PageContent) (output : list Worker.OutputItem)
    (imageData producturl presignedUrl : string) :
  Worker.upd_processing sc = None →
  Worker.scrape sc = Ok pageContent →
  Worker.synth sc = Ok output →
  Worker.first_image output = Some imageData →
  imageData ≠ "" →
  sanitizeMetadata (msg_productUrl m) = Ok producturl →
  Worker.put_object sc = None →
  Worker.presign sc = Ok presignedUrl →
  Worker.upd_completed sc = None →
  msg_jobId m ≠ "" →
  presignedUrl ≠ "" →
  Responder.get_fault rs = None →
  Responder.now rs + 300000 ≤ Worker.now_expiresAt sc + 3600000 →
  let format := leading_format (Buffer_from_base64 imageData) in
  let w' := (Worker.process_record Buffer_from_base64 m sc w).2 in
  ∃ r,
    Responder.handler js_lt (Some (msg_jobId m)) rs w'
      = (Ok r, log (GetItem (msg_jobId m)) w') ∧
    statusCode r = 200 ∧
    body r !! "status" = Some (VStr "completed") ∧
    body r !! "imageUrl" = Some (VStr presignedUrl) ∧
    body r !! "urlExpiresAt" = Some (VNum (Worker.now_expiresAt sc + 3600000)) ∧
    body r !! "fileName" = Some (VStr (msg_jobId m +:+ "." +:+ format.1)) ∧
    body r !! "contentType" = Some (VStr format.2) ∧
    body r !! "completedAt" = Some (VNum (Worker.now_completedAt sc)).
Proof.
  intros H1 H2 H3 H4 H5 H6 H7 H8 H9 Hj Hu Hg Hnow format w'.
  destruct (process_success_record Buffer_from_base64 m sc w pageContent output
              imageData producturl presignedUrl H1 H2 H3 H4 H5 H6 H7 H8 H9)
    as (w1 & job & Hrun & Hl & Hs & Hi & He & Hf & Hc & Hd).
  subst w'. rewrite Hrun. cbn [snd].
  rewrite (responder_completed js_lt (msg_jobId m) rs w1 job Hj Hg Hl Hs). cbv zeta.
  assert (Ht : truthy (job !! "imageUrl") = true).
  { rewrite Hi. cbn [truthy]. apply String.eqb_neq in Hu. by rewrite Hu. }
  rewrite Ht, He, js_or_number, js_lt_number.
  apply Z.ltb_ge in Hnow. rewrite Hnow. cbn [negb orb].
  eexists. split; [reflexivity|].
  split; [reflexivity|].
  repeat split;
    unfold completed_response; cbn [body];
    rewrite ?lookup_set_prop_ne by done; rewrite ?lookup_insert_ne by done;
    rewrite ?lookup_set_prop_ne by done;
    rewrite ?lookup_set_prop_eq, ?lookup_insert_eq; done.
Qed.

(** X16.  After an invocation in which the scrape, synthesis or upload step
    threw [e] and the write of [failed] was accepted, the status read
    answers 200 with status failed, [e] as [error] and the [failedAt] the
    worker stored; it carries no link. *)
Theorem failed_job_reads_as_failed
    (m : Message) (sc : Worker.Script) (rs : Responder.Script) (w : World)
    (e : string) :
  step_throws m sc e →
  Worker.upd_failed sc = None →
  msg_jobId m ≠ "" →
  Responder.get_fault rs = None →
  let w' := (Worker.process_record Buffer_from_base64 m sc w).2 in
  ∃ r,
    Responder.handler js_lt (Some (msg_jobId m)) rs w'
      = (Ok r, log (GetItem (msg_jobId m)) w') ∧
    statusCode r = 200 ∧
    body r !! "status" = Some (VStr "failed") ∧
    body r !! "error" = Some (VStr e) ∧
    body r !! "failedAt" = Some (VNum (Worker.now_failedAt sc)) ∧
    body r !! "imageUrl" = None.
Proof.
  intros Hs Hf Hj Hg w'.
  destruct (pipeline_step_throws Buffer_from_base64 m sc w e Hs) as [w1 Hp].
  subst w'.
  rewrite (process_record_caught Buffer_from_base64 _ _ _ _ _ Hp), Hf,
    updateJobStatus_accepted.
  cbn [snd].
  set (w2 := with_table _ _).
  assert (Hjob : ∃ job, table w2 !! msg_jobId m = Some job ∧
            job !! "status" = Some (VStr "failed") ∧
            job !! "error" = Some (VStr e) ∧
            job !! "failedAt" = Some (VNum (Worker.now_failedAt sc))).
  { subst w2. simpl_world. eexists. split; [apply lookup_insert_eq|].
    repeat split; solve_item. }
  destruct Hjob as (job & Hl & Hst & He & Ha). clearbody w2.
  apply String.eqb_neq in Hj.
  unfold_responder. rewrite Hj, Hg, Hl. cbv beta iota zeta.
  rewrite Hst. cbn [strict_eq_str String.eqb Ascii.eqb Bool.eqb]. cbv beta iota zeta.
  eexists. split; [reflexivity|]. split; [reflexivity|].
  cbn [body].
  repeat split;
    rewrite ?lookup_set_prop_ne by done; rewrite ?lookup_set_prop_eq; done.
Qed.

End EndToEnd.

Lemma processed_job_reads_as_completed_witness :
  let w' := (Worker.process_record sample_decoder widget_message
               (success_script "/9j/") (world submitted_system)).2 in
  ∃ r,
    Responder.handler num_lt (Some "job-1") (read_script 1700000100000 (Ok "")) w'
      = (Ok r, log (GetItem "job-1") w') ∧
    statusCode r = 200 ∧
    body r !! "status" = Some (VStr "completed") ∧
    body r !! "imageUrl" = Some (VStr "https://bucket.s3/job-1?sig=1") ∧
    body r !! "urlExpiresAt" = Some (VNum 1700003660001) ∧
    body r !! "fileName" = Some (VStr "job-1.jpg") ∧
    body r !! "contentType" = Some (VStr "image/jpeg") ∧
    body r !! "completedAt" = Some (VNum 1700000060000).
Proof.
  exact (processed_job_reads_as_completed sample_decoder num_lt (λ a n, eq_refl)
           widget_message (success_script "/9j/")
           (read_script 1700000100000 (Ok "")) (world submitted_system)
           widget_page _ "/9j/" "https://example.com/widget"
           "https://bucket.s3/job-1?sig=1"
           eq_refl eq_refl eq_refl eq_refl ltac:(discriminate) eq_refl eq_refl
           eq_refl eq_refl ltac:(discriminate) ltac:(discriminate) eq_refl
           ltac:(vm_compute; discriminate)).
Defined.

Lemma failed_job_reads_as_failed_witness :
  let w' := (Worker.process_record sample_decoder widget_message
               (scrape_failure_script "timeout of 10000ms exceeded" None)
               (world submitted_system)).2 in
  ∃ r,
    Responder.handler num_lt (Some "job-1") (read_script 1700000100000 (Ok "")) w'
      = (Ok r, log (GetItem "job-1") w') ∧
    statusCode r = 200 ∧
    body r !! "status" = Some (VStr "failed") ∧
    body r !! "error" = Some (VStr "timeout of 10000ms exceeded") ∧
    body r !! "failedAt" = Some (VNum 1700000070000) ∧
    body r !! "imageUrl" = None.
Proof.
  refine (failed_job_reads_as_failed sample_decoder num_lt widget_message
            (scrape_failure_script "timeout of 10000ms exceeded" None)
            (read_script 1700000100000 (Ok "")) (world submitted_system)
            "timeout of 10000ms exceeded" _ eq_refl ltac:(discriminate) eq_refl).
  apply scrape_throws; reflexivity.
Defined.

(** ** More on metadata sanitisation *)

Lemma trimStart_head (l : list N) (c : N) (r : list N) :
  trimStart l = c :: r → is_white_space c = false.
Proof.
  induction l as [|a l IH]; cbn [trimStart]; [discriminate|].
  destruct (is_white_space a) eqn:Ha; [exact IH|].
  intros H. injection H as <- _. exact Ha.
Qed.

Lemma trimStart_fixed (l : list N) :
  (∀ c r, l = c :: r → is_white_space c = false) → trimStart l = l.
Proof.
  destruct l as [|a l]; [done|]. intros H. cbn [trimStart].
  by rewrite (H a l eq_refl).
Qed.

Lemma trimStart_suffix (l : list N) : ∃ p, l = p ++ trimStart l.
Proof.
  induction l as [|a l [p IH]]; [by exists []|]. cbn [trimStart].
  destruct (is_white_space a); [|by exists []].
  exists (a :: p). cbn [app]. by rewrite <- IH.
Qed.

Lemma trim_trimmed (l : list N) : trimmed (trim l).
Proof.
  unfold trim, trimEnd. split.
  - intros c r H.
    destruct (trimStart_suffix (rev (trimStart l))) as [p Hp].
    apply (f_equal (@rev N)) in H. rewrite List.rev_involutive in H.
    rewrite H in Hp. apply (f_equal (@rev N)) in Hp.
    rewrite List.rev_involutive, List.rev_app_distr, List.rev_involutive in Hp.
    cbn [app] in Hp. by eapply trimStart_head.
  - intros c r H. rewrite List.rev_involutive in H. by eapply trimStart_head.
Qed.

Lemma trim_fixed (l : list N) : trimmed l → trim l = l.
Proof.
  intros [Hh Ht]. unfold trim, trimEnd.
  rewrite (trimStart_fixed l Hh), (trimStart_fixed (rev l) Ht).
  apply List.rev_involutive.
Qed.

(** On a value that is already printable, short and trimmed, the chain does
    nothing. *)
Lemma sanitize_units_fixed (l : list N) :
  Forall printable l →
  (List.length l ≤ 200)%nat →
  trimmed l →
  sanitize_units l = l.
Proof.
  intros Hp Hlen Ht. unfold sanitize_units.
  assert (Hmap : map (λ c, if is_cr_lf_tab c then 32%N else c) l = l).
  { clear Hlen Ht.
    induction Hp as [|c l Hc Hl IH]; [done|]. cbn [map]. rewrite IH. f_equal.
    unfold printable in Hc. unfold is_cr_lf_tab.
    destruct (N.eqb_spec c 13); [lia|]. destruct (N.eqb_spec c 10); [lia|].
    destruct (N.eqb_spec c 9); [lia|]. done. }
  rewrite Hmap.
  assert (Hfilter : List.filter is_printable_ascii l = l).
  { apply List.forallb_filter_id. apply List.forallb_forall.
    intros c Hc. rewrite List.Forall_forall in Hp. specialize (Hp c Hc).
    unfold printable in Hp. unfold is_printable_ascii.
    apply andb_true_iff. split; apply N.leb_le; lia. }
  rewrite Hfilter, take_ge by done. by apply trim_fixed.
Qed.

(** X17.  Sanitising is idempotent: a value that went through
    [sanitizeMetadata] comes out of a second pass unchanged. *)
Theorem sanitize_units_idempotent (value : list N) :
  sanitize_units (sanitize_units value) = sanitize_units value.
Proof.
  apply sanitize_units_fixed.
  - apply sanitize_units_printable.
  - apply sanitize_units_length.
  - apply trim_trimmed.
Qed.

Lemma string_of_units_of_string (s : string) :
  string_of_units (units_of_string s) = s.
Proof.
  unfold string_of_units, units_of_string.
  rewrite <- (string_of_list_ascii_of_string s) at 2. f_equal.
  induction (list_ascii_of_string s) as [|a l IH]; [done|].
  cbn [map]. by rewrite ascii_N_embedding, IH.
Qed.

Lemma length_units_of_string (s : string) :
  List.length (units_of_string s) = String.length s.
Proof.
  unfold units_of_string. rewrite List.length_map.
  induction s as [|a s IH]; [done|]. cbn. by rewrite IH.
Qed.

(** X18.  A string that is already fit for the object store (printable
    ASCII only, at most 200 long, no space at either end) is passed through by
    [sanitizeMetadata] exactly as it is. *)
Theorem sanitizeMetadata_keeps_clean_strings (s : string) :
  clean s →
  trimmed (units_of_string s) →
  sanitizeMetadata (Some (VStr s)) = Ok s.
Proof.
  intros [Hp Hlen] Ht. unfold sanitizeMetadata. cbn [truthy negb].
  destruct (String.eqb_spec s "") as [->|Hne]; [done|]. cbn [negb].
  rewrite sanitize_units_fixed; [by rewrite string_of_units_of_string|done| |done].
  by rewrite length_units_of_string.
Qed.

Lemma sanitizeMetadata_keeps_clean_strings_witness :
  sanitizeMetadata (Some (VStr "Widget Pro $9.99")) = Ok "Widget Pro $9.99".
Proof.
  apply sanitizeMetadata_keeps_clean_strings.
  - split; [|vm_compute; lia].
    unfold printable. vm_compute. repeat constructor; discriminate.
  - split; intros c r H; vm_compute in H; injection H as <- _; reflexivity.
Defined.

Lemma sanitizeMetadata_clean (value : option Value) (r : string) :
  sanitizeMetadata value = Ok r → clean r.
Proof.
  unfold sanitizeMetadata.
  destruct (negb (truthy value)).
  - intros H. injection H as <-. split; [constructor|cbn; lia].
  - destruct value as [[| | |s| |]|]; try discriminate.
    intros H. injection H as <-. split.
    + rewrite units_of_string_of_units by apply sanitize_units_printable.
      apply sanitize_units_printable.
    + rewrite length_string_of_units. apply sanitize_units_length.
Qed.

Ltac split_trace H :=
  repeat match type of H with
         | _ ∈ _ ++ _ => apply elem_of_app in H as [H|H]
         end.

(** X19.  Whatever happens before or after it in the invocation, an upload
    that the worker issues has the key [jobId.extension] and the content type
    named by the leading bytes of the uploaded body, and carries exactly the
    metadata [productname], [price] and [producturl], each value printable
    and at most 200 long. *)
Theorem uploads_are_keyed_and_labelled
    (Buffer_from_base64 : string → list byte)
    (m : Message) (sc : Worker.Script) (w : World) (key : string) (o : S3Object) :
  PutObject key o ∈ trace (Worker.process_record Buffer_from_base64 m sc w).2 →
  PutObject key o ∈ trace w ∨
  (key = msg_jobId m +:+ "." +:+ (leading_format (Body o)).1 ∧
   ContentType o = (leading_format (Body o)).2 ∧
   (Metadata o).*1 = ["productname"; "price"; "producturl"] ∧
   Forall clean (Metadata o).*2).
Proof.
  unfold_worker.
  run_cases; simpl_world; intros Hin; split_trace Hin; try (by left);
    apply list_elem_of_singleton in Hin; try discriminate Hin;
    injection Hin as -> ->; right; cbn [Body ContentType Metadata];
    rewrite detect_format_leading;
    (split; [done|]); (split; [done|]); (split; [done|]);
    repeat (apply List.Forall_cons; [eapply sanitizeMetadata_clean; eassumption|]);
    apply List.Forall_nil.
Qed.

Lemma uploads_are_keyed_and_labelled_witness :
  let o := {| Body := [xff; xd8; xff]; ContentType := "image/jpeg";
              Metadata := [("productname", "Widget"); ("price", "$9.99");
                           ("producturl", "https://example.com/widget")] |} in
  PutObject "job-1.jpg" o ∈ trace (world submitted_system) ∨
  ("job-1.jpg" = "job-1" +:+ "." +:+ (leading_format (Body o)).1 ∧
   ContentType o = (leading_format (Body o)).2 ∧
   (Metadata o).*1 = ["productname"; "price"; "producturl"] ∧
   Forall clean (Metadata o).*2).
Proof.
  refine (uploads_are_keyed_and_labelled sample_decoder widget_message
            (success_script "/9j/") (world submitted_system) "job-1.jpg" _ _).
  apply list_elem_of_In. vm_compute. tauto.
Defined.

(** ** The prompt *)

Lemma length_append (s t : string) :
  String.length (s +:+ t) = (String.length s + String.length t)%nat.
Proof.
  induction s as [|c s IH]; [done|].
  change (S (String.length (s +:+ t)) = S (String.length s + String.length t)).
  by rewrite IH.
Qed.

Lemma append_assoc (s t u : string) : (s +:+ t) +:+ u = s +:+ (t +:+ u).
Proof.
  induction s as [|c s IH]; [done|].
  change (String c ((s +:+ t) +:+ u) = String c (s +:+ (t +:+ u))).
  by rewrite IH.
Qed.

Lemma length_substring_0 (n : nat) (s : string) :
  String.length (String.substring 0 n s) = Nat.min n (String.length s).
Proof.
  revert s. induction n as [|n IH]; intros [|c s]; simpl; try done.
  f_equal. apply IH.
Qed.

Example buildImagePrompt_widget :
  Page.includes (Page.buildImagePrompt widget_page)
    (Page.use_cta "Buy Now" +:+ prompt_closing) = true.
Proof. vm_compute. reflexivity. Qed.

(** The statements of [buildImagePrompt] as local definitions, one per
    assignment and under the names of the source: [prompt] is the opening
    sentence, [prompt0] adds the product name, [prompt1] the description,
    [prompt2] the style, [prompt3] the page text, [prompt4] the overlay
    instruction, [prompt5] to [prompt7] the name, price and offer overlays,
    [prompt8] and [prompt9] the call to action, [prompt10] to [prompt12]
    and the result the closing sentences. *)
Ltac name_lets t k :=
  lazymatch t with
  | (let x := ?e in @?f x) =>
      let p := fresh x in
      pose (p := e);
      let t' := eval cbv beta in (f p) in
      name_lets t' k
  | _ => k t
  end.

Ltac prompt_stages pc :=
  let t := eval cbv beta delta [Page.buildImagePrompt] in (Page.buildImagePrompt pc) in
  name_lets t ltac:(fun t' => change (Page.buildImagePrompt pc) with t');
  repeat match goal with
         | x := Worker.productName pc |- _ => subst x
         | x := Worker.description pc |- _ => subst x
         | x := Worker.price pc |- _ => subst x
         | x := Worker.location pc |- _ => subst x
         | x := Worker.bodyText pc |- _ => subst x
         | x := Worker.offer pc |- _ => subst x
         end.

Ltac literal_lengths :=
  repeat match goal with
         | |- context [String.length (String ?c ?s)] =>
             let n := eval vm_compute in (String.length (String c s)) in
             change (String.length (String c s)) with n
         end.

(** X20.  The prompt is bounded by 1333 characters of fixed text plus the
    fields it quotes: the product name twice, the description, the price and
    the offer once each, and at most 500 characters of the page text,
    however long the page is. *)
Theorem prompt_length_is_bounded (pageContent : Worker.PageContent) :
  (String.length (Page.buildImagePrompt pageContent)
   ≤ 1333 + 2 * String.length (Worker.productName pageContent)
     + String.length (Worker.description pageContent)
     + String.length (Worker.price pageContent)
     + String.length (Worker.offer pageContent)
     + Nat.min 500 (String.length (Worker.bodyText pageContent)))%nat.
Proof.
  prompt_stages pageContent.
  set (name := String.length (Worker.productName pageContent)).
  set (desc := String.length (Worker.description pageContent)).
  set (cost := String.length (Worker.price pageContent)).
  set (deal := String.length (Worker.offer pageContent)).
  set (body := String.length (Worker.bodyText pageContent)).
  assert (H0 : (String.length prompt0 = 118 + name)%nat).
  { unfold prompt0, prompt, name. rewrite !length_append. literal_lengths. lia. }
  clearbody prompt0.
  assert (H1 : (String.length prompt1 ≤ 133 + name + desc)%nat).
  { unfold prompt1, desc.
    destruct (Page.nonempty (Worker.description pageContent));
      rewrite ?length_append; literal_lengths; lia. }
  clearbody prompt1.
  assert (H2 : (String.length prompt2 ≤ 350 + name + desc)%nat).
  { unfold prompt2. destruct isRealEstate, isService;
      rewrite !length_append; literal_lengths; lia. }
  clearbody prompt2.
  assert (H3 : (String.length prompt3 ≤ 361 + name + desc + Nat.min 500 body)%nat).
  { unfold prompt3, body. cbv zeta.
    destruct (Page.nonempty (Worker.bodyText pageContent));
      rewrite ?length_append, ?length_substring_0; literal_lengths; lia. }
  clearbody prompt3.
  assert (H4 : (String.length prompt4 ≤ 442 + name + desc + Nat.min 500 body)%nat).
  { unfold prompt4. rewrite !length_append. literal_lengths. lia. }
  clearbody prompt4.
  assert (H5 : (String.length prompt5
                ≤ 597 + 2 * name + desc + Nat.min 500 body)%nat).
  { unfold prompt5, name, Page.dq.
    destruct (Page.nonempty (Worker.productName pageContent));
      rewrite ?length_append; literal_lengths; lia. }
  clearbody prompt5.
  assert (H6 : (String.length prompt6
                ≤ 727 + 2 * name + desc + cost + Nat.min 500 body)%nat).
  { unfold prompt6, cost, Page.dq.
    destruct (Page.nonempty (Worker.price pageContent));
      rewrite ?length_append; literal_lengths; lia. }
  clearbody prompt6.
  assert (H7 : (String.length prompt7
                ≤ 822 + 2 * name + desc + cost + deal + Nat.min 500 body)%nat).
  { unfold prompt7, deal, Page.dq.
    destruct (Page.nonempty (Worker.offer pageContent));
      rewrite ?length_append; literal_lengths; lia. }
  clearbody prompt7.
  assert (H8 : (String.length prompt8
                ≤ 898 + 2 * name + desc + cost + deal + Nat.min 500 body)%nat).
  { unfold prompt8. rewrite !length_append. literal_lengths. lia. }
  clearbody prompt8.
  assert (H9 : (String.length prompt9
                ≤ 941 + 2 * name + desc + cost + deal + Nat.min 500 body)%nat).
  { unfold prompt9, Page.use_cta, Page.dq.
    destruct isRealEstate, isService, (Page.nonempty (Worker.price pageContent));
      rewrite !length_append; literal_lengths; lia. }
  clearbody prompt9.
  unfold prompt12, prompt11, prompt10.
  rewrite !length_append. literal_lengths. lia.
Qed.

Lemma prompt_tail (front cta : string) :
  ((((front +:+ cta)
     +:+ "Make the call-to-action button visually appealing with a contrasting color (like orange, red, or bright blue), bold text, and rounded corners. ")
    +:+ "Ensure all text is highly readable with proper contrast, shadows, and backgrounds. ")
   +:+ "The text should be professional, modern, and optimized for social media advertising. ")
  +:+ "Photorealistic quality with text integrated naturally into the image composition."
  = front +:+ cta +:+ prompt_closing.
Proof. unfold prompt_closing. by rewrite !append_assoc. Qed.

Lemma starts_app (a p x : string) :
  (∃ r, p = a +:+ r) → ∃ r, p +:+ x = a +:+ r.
Proof. intros [r ->]. exists (r +:+ x). apply append_assoc. Qed.

Lemma starts_if (a x y : string) (b : bool) :
  (∃ r, x = a +:+ r) → (∃ r, y = a +:+ r) → ∃ r, (if b then x else y) = a +:+ r.
Proof. by destruct b. Qed.

Lemma starts_refl (a : string) : ∃ r, a = a +:+ r.
Proof.
  exists "". induction a as [|c a IH]; [done|].
  change (String c a = String c (a +:+ "")). by rewrite <- IH.
Qed.

(** X21.  Every prompt opens with the fixed first sentence and the product
    name, and ends with one call-to-action sentence followed by the four
    closing sentences.  The call to action is "View Property" when the page
    has a location or mentions property, house or apartment; otherwise
    "Book Now" when it mentions service, consulting or booking; otherwise
    "Buy Now" when a price was found; otherwise "Learn More". *)
Theorem prompt_opens_and_ends_as_fixed (pageContent : Worker.PageContent) :
  (∃ rest, Page.buildImagePrompt pageContent
           = (prompt_opening
              +:+ ("Product Name: " +:+ Worker.productName pageContent +:+ ". "))
             +:+ rest) ∧
  (∃ front, Page.buildImagePrompt pageContent
            = front +:+ Page.use_cta (cta_label pageContent) +:+ prompt_closing).
Proof.
  unfold cta_label, is_real_estate, is_service, prompt_opening.
  prompt_stages pageContent.
  fold isRealEstate isService. fold prompt. fold prompt0.
  split.
  - pose proof (starts_refl prompt0) as H0. clearbody prompt0.
    unfold prompt12, prompt11, prompt10, prompt9, prompt8, prompt7, prompt6,
      prompt5, prompt4, prompt3, prompt2, prompt1.
    cbv zeta.
    repeat first [exact H0 | apply starts_app | apply starts_if].
  - clearbody prompt8. unfold prompt12, prompt11, prompt10, prompt9.
    destruct isRealEstate, isService, (Page.nonempty (Worker.price pageContent));
      eexists; apply prompt_tail.
Qed.

(** ** The page scrape *)

Lemma units_of_string_bytes (s : string) :
  Forall (λ c, (c < 256)%N) (units_of_string s).
Proof.
  unfold units_of_string.
  induction (list_ascii_of_string s) as [|a l IH]; [done|].
  cbn [map]. constructor; [apply N_ascii_bounded|exact IH].
Qed.

Lemma units_of_string_of_bytes (l : list N) :
  Forall (λ c, (c < 256)%N) l → units_of_string (string_of_units l) = l.
Proof.
  intros H. unfold units_of_string, string_of_units.
  rewrite list_ascii_of_string_of_list_ascii.
  induction H as [|c l Hc Hl IH]; [done|].
  cbn [map]. rewrite IH. f_equal. by apply N_ascii_embedding.
Qed.

Lemma trimEnd_prefix (l : list N) : ∃ q, l = trimEnd l ++ q.
Proof.
  unfold trimEnd. destruct (trimStart_suffix (rev l)) as [p Hp].
  exists (rev p). rewrite <- List.rev_app_distr, <- Hp.
  symmetry. apply List.rev_involutive.
Qed.

Lemma Forall_trim (P : N → Prop) (l : list N) : Forall P l → Forall P (trim l).
Proof.
  intros H. unfold trim.
  destruct (trimStart_suffix l) as [p Hp].
  destruct (trimEnd_prefix (trimStart l)) as [q Hq].
  rewrite Hp, Hq in H.
  apply Forall_app in H as [_ H]. by apply Forall_app in H as [H _].
Qed.

Lemma Forall_collapse_from (run : bool) (l : list N) :
  Forall (λ c, (c < 256)%N) l → Forall (λ c, (c < 256)%N) (Page.collapse_from run l).
Proof.
  intros H. revert run.
  induction H as [|c l Hc Hl IH]; intros run; cbn [Page.collapse_from]; [done|].
  destruct (is_white_space c), run; repeat constructor; auto; lia.
Qed.

Lemma units_of_trim (s : string) :
  units_of_string (Page.trim s) = trim (units_of_string s).
Proof.
  unfold Page.trim. apply units_of_string_of_bytes, Forall_trim,
    units_of_string_bytes.
Qed.

Lemma units_of_clean_price (s : string) :
  units_of_string (Page.clean_price s) = trim (Page.collapse (units_of_string s)).
Proof.
  unfold Page.clean_price. apply units_of_string_of_bytes, Forall_trim,
    Forall_collapse_from, units_of_string_bytes.
Qed.

Lemma units_of_clean_body (s : string) :
  units_of_string (Page.clean_body s)
  = take 2000 (trim (Page.collapse (units_of_string s))).
Proof.
  unfold Page.clean_body. apply units_of_string_of_bytes, Forall_take,
    Forall_trim, Forall_collapse_from, units_of_string_bytes.
Qed.

Lemma trimmed_nil : trimmed [].
Proof. split; intros c r H; discriminate H. Qed.

Lemma trimmed_trim (s : string) : trimmed (units_of_string (Page.trim s)).
Proof. rewrite units_of_trim. apply trim_trimmed. Qed.

Lemma or_text_cases (P : string → Prop) (a b : string) :
  P a → P b → P (Page.or_text a b).
Proof. unfold Page.or_text. by destruct (Page.nonempty a). Qed.

Lemma or_attr_cases (P : string → Prop) (a : option string) (b : string) :
  (∀ s, a = Some s → P s) → P b → P (Page.or_attr a b).
Proof.
  unfold Page.or_attr. destruct a as [s|]; [|done].
  destruct (Page.nonempty s); auto.
Qed.

Lemma nonempty_true (s : string) : Page.nonempty s = true ↔ s ≠ "".
Proof.
  unfold Page.nonempty. by destruct (String.eqb_spec s "").
Qed.

Lemma or_text_default (a b : string) : b ≠ "" → Page.or_text a b ≠ "".
Proof.
  intros Hb. unfold Page.or_text. destruct (Page.nonempty a) eqn:Ha; [|done].
  by apply nonempty_true.
Qed.

(** X22.  Whatever the selectors find, the scraped page has a product name:
    it is not empty, it has no white space at either end, and [title] is the
    same string. *)
Theorem scraped_page_has_a_name (url : option Value) (sel : Page.Selection) :
  Worker.productName (Page.scrapeProductPage url sel)
  = Worker.title (Page.scrapeProductPage url sel) ∧
  Worker.productName (Page.scrapeProductPage url sel) ≠ "" ∧
  trimmed (units_of_string (Worker.productName (Page.scrapeProductPage url sel))).
Proof.
  unfold Page.scrapeProductPage. cbn [Worker.productName Worker.title].
  split; [done|]. split; [by apply or_text_default|].
  apply (or_text_cases (λ s, trimmed (units_of_string s))).
  - apply or_attr_cases.
    + destruct (Page.sel_og_title sel) as [t|]; [|done].
      intros s [= <-]. apply trimmed_trim.
    + repeat (apply or_text_cases; [apply trimmed_trim|]). apply trimmed_nil.
  - split; intros c r H; vm_compute in H; by injection H as <- _.
Qed.

Lemma collapse_from_spaced (run : bool) (l : list N) :
  single_spaced (Page.collapse_from run l) = true ∧
  (run = true →
   ∀ c r, Page.collapse_from run l = c :: r → is_white_space c = false).
Proof.
  revert run. induction l as [|a l IH]; intros run; cbn [Page.collapse_from].
  - split; [done|]. intros _ c r H. discriminate H.
  - destruct (is_white_space a) eqn:Ha.
    + destruct run.
      * apply IH.
      * split; [|done]. destruct (IH true) as [Hs Hh].
        cbn [single_spaced]. rewrite Hs.
        destruct (Page.collapse_from true l) as [|d r] eqn:Hd; [done|].
        by rewrite (Hh eq_refl d r eq_refl).
    + destruct (IH false) as [Hs _]. split.
      * cbn [single_spaced]. by rewrite Ha, Hs.
      * intros _ c r [= <- _]. exact Ha.
Qed.

Lemma single_spaced_suffix (p l : list N) :
  single_spaced (p ++ l) = true → single_spaced l = true.
Proof.
  induction p as [|c p IH]; [done|]. cbn [app single_spaced].
  intros [_ H]%andb_true_iff. by apply IH.
Qed.

Lemma single_spaced_prefix (p q : list N) :
  single_spaced (p ++ q) = true → single_spaced p = true.
Proof.
  induction p as [|c p IH]; [done|]. cbn [app single_spaced].
  intros [Hc H]%andb_true_iff. rewrite (IH H), andb_true_r.
  destruct (is_white_space c); [|done].
  apply andb_true_iff in Hc as [-> Hn]. by destruct p.
Qed.

Lemma trim_spaced (l : list N) :
  single_spaced l = true → single_spaced (trim l) = true.
Proof.
  intros H. unfold trim.
  destruct (trimStart_suffix l) as [p Hp].
  destruct (trimEnd_prefix (trimStart l)) as [q Hq].
  rewrite Hp in H. apply single_spaced_suffix in H.
  rewrite Hq in H. by apply single_spaced_prefix in H.
Qed.

(** X23.  The scraped price has its white space normalised: none at either
    end, and inside only single spaces (no tab, line break or other white
    space, and no two spaces in a row). *)
Theorem scraped_price_is_single_spaced (url : option Value) (sel : Page.Selection) :
  trimmed (units_of_string (Worker.price (Page.scrapeProductPage url sel))) ∧
  single_spaced (units_of_string (Worker.price (Page.scrapeProductPage url sel)))
  = true.
Proof.
  unfold Page.scrapeProductPage. cbn [Worker.price].
  rewrite units_of_clean_price. split; [apply trim_trimmed|].
  apply trim_spaced, collapse_from_spaced.
Qed.

(** X24.  The scraped page text is at most 2000 characters long, does not
    start with white space, and holds only single spaces as white space.  (It
    may end with a space, when the cut at 2000 falls after one.) *)
Theorem scraped_text_is_bounded_and_single_spaced
  (url : option Value) (sel : Page.Selection) :
  (String.length (Worker.bodyText (Page.scrapeProductPage url sel)) ≤ 2000)%nat ∧
  (∀ c r, units_of_string (Worker.bodyText (Page.scrapeProductPage url sel)) = c :: r →
          is_white_space c = false) ∧
  single_spaced (units_of_string (Worker.bodyText (Page.scrapeProductPage url sel)))
  = true.
Proof.
  unfold Page.scrapeProductPage. cbn [Worker.bodyText].
  split; [|rewrite units_of_clean_body; split].
  - unfold Page.clean_body. rewrite length_string_of_units, length_take. lia.
  - intros c r H.
    destruct (trim_trimmed (Page.collapse (units_of_string (Page.sel_body sel))))
      as [Hh _].
    destruct (trim (Page.collapse (units_of_string (Page.sel_body sel))))
      as [|d t]; [discriminate H|].
    cbn [take] in H. injection H as <- _. by apply (Hh d t).
  - apply (single_spaced_prefix _
             (drop 2000 (trim (Page.collapse (units_of_string (Page.sel_body sel)))))).
    rewrite take_drop. apply trim_spaced, collapse_from_spaced.
Qed.

Lemma span_class (class : ascii → bool) (s : string) :
  Forall (λ c, class c = true) (list_ascii_of_string (Page.span class s).1).
Proof.
  induction s as [|a s IH]; cbn [Page.span]; [constructor|].
  destruct (class a) eqn:Ha; [|constructor].
  destruct (Page.span class s) as [taken rest].
  cbn [fst list_ascii_of_string] in *. by constructor.
Qed.

Lemma toLowerCase_substring (n m : nat) (s : string) :
  Page.toLowerCase (String.substring n m s)
  = String.substring n m (Page.toLowerCase s).
Proof.
  revert n m. induction s as [|a s IH]; intros [|n] [|m];
    cbn [String.substring Page.toLowerCase]; try done.
  by rewrite IH.
Qed.

Lemma length_toLowerCase (s : string) :
  String.length (Page.toLowerCase s) = String.length s.
Proof. induction s as [|a s IH]; [done|]. cbn. by rewrite IH. Qed.

Lemma word_of_lower (words : list string) (s w r : string) :
  Page.word_of words s = Some (w, r) → Page.toLowerCase w ∈ words.
Proof.
  induction words as [|w0 words IH]; cbn [Page.word_of]; [discriminate|].
  destruct (String.prefix w0 (Page.toLowerCase s)) eqn:Hp.
  - intros [= <- _]. rewrite toLowerCase_substring.
    apply prefix_correct in Hp. rewrite Hp. apply list_elem_of_here.
  - intros H. apply list_elem_of_further. by apply IH.
Qed.

Lemma search_found (at_start : string → option (string * string))
    (s : string) (groups : string * string) :
  Page.search at_start s = Some groups → ∃ t, at_start t = Some groups.
Proof.
  induction s as [|a s IH]; cbn [Page.search].
  - destruct (at_start "") eqn:H; [|discriminate].
    intros [= <-]. by exists "".
  - destruct (at_start (String a s)) eqn:H.
    + intros [= <-]. by exists (String a s).
    + exact IH.
Qed.

Lemma percent_word_at_number (s number word : string) :
  Page.percent_word_at s = Some (number, word) → is_number number.
Proof.
  unfold Page.percent_word_at.
  pose proof (span_class Page.is_digit s) as Hd.
  destruct (Page.span Page.is_digit s) as [digits rest]. cbn [fst] in Hd.
  destruct (Page.nonempty digits) eqn:Hn; [|discriminate].
  destruct rest as [|c rest]; [discriminate|].
  destruct (Ascii.eqb_spec c "%") as [->|Hc].
  - destruct (Page.span Page.is_space rest) as [spaces rest'].
    destruct (Page.word_of _ rest') as [[w r]|]; [|discriminate].
    intros [= <- _]. split; [by apply nonempty_true|exact Hd].
  - intros H. exfalso. revert H.
    destruct c as [[] [] [] [] [] [] [] []]; try discriminate. by destruct Hc.
Qed.

Lemma verb_percent_at_verb (s verb number : string) :
  Page.verb_percent_at s = Some (verb, number) →
  Page.toLowerCase verb = "save" ∨ Page.toLowerCase verb = "get".
Proof.
  unfold Page.verb_percent_at.
  destruct (Page.word_of ["save"; "get"] s) as [[v r]|] eqn:Hw; [|discriminate].
  apply word_of_lower in Hw.
  destruct (Page.span Page.is_space r) as [spaces r'].
  destruct (Page.span Page.is_digit r') as [digits r''].
  destruct (Page.nonempty digits); [|discriminate].
  destruct r'' as [|c r'']; [discriminate|].
  destruct c as [[] [] [] [] [] [] [] []]; try discriminate.
  intros [= <- _].
  apply elem_of_cons in Hw as [Hw|Hw]; [by left|].
  apply list_elem_of_singleton in Hw. by right.
Qed.

Lemma toLowerCase_nonempty (s : string) :
  Page.toLowerCase s ≠ "" → Page.nonempty s = true.
Proof. by destruct s. Qed.

Example offer_quotes_the_verb :
  Worker.offer
    (Page.scrapeProductPage None
       {| Page.sel_og_title := Some "Blue Widget";
          Page.sel_h1 := ""; Page.sel_product_title := "";
          Page.sel_product_name := ""; Page.sel_title := "";
          Page.sel_itemprop_price := None; Page.sel_class_price := "";
          Page.sel_id_price := ""; Page.sel_data_price := None;
          Page.sel_class_cost := ""; Page.sel_original_price := "";
          Page.sel_old_price := ""; Page.sel_was_price := "";
          Page.sel_body := "  Summer sale!   Save 20% today ";
          Page.sel_meta_description := None; Page.sel_og_description := None;
          Page.sel_product_description := ""; Page.sel_p := "";
          Page.sel_tel_href := None; Page.sel_class_phone := "";
          Page.sel_class_location := ""; Page.sel_class_address := "";
          Page.sel_itemprop_address := "" |})
  = "Save% OFF".
Proof. vm_compute. reflexivity. Qed.

(** X25.  The offer of a scraped page is decided by its page text alone,
    apart from the choice between the two fixed labels.  Without one of the
    words discount, off, sale, deal, promo, offer it is empty.  With one, it
    is the number of the first "<number>% off|discount|sale" followed by
    "% OFF"; failing that, for a first "save|get <number>%" it is the verb as
    the page writes it followed by "% OFF" (the number is not used); failing
    both, it is "SPECIAL OFFER" when an original price and a price were found
    and "ON SALE" otherwise. *)
Theorem scraped_offer_forms (url : option Value) (sel : Page.Selection) :
  let page := Page.scrapeProductPage url sel in
  let text := Worker.bodyText page in
  (Page.has_offer_word (Page.toLowerCase text) = false ∧ Worker.offer page = "") ∨
  (Page.has_offer_word (Page.toLowerCase text) = true ∧
   ((∃ number word,
       Page.search Page.percent_word_at text = Some (number, word) ∧
       is_number number ∧
       Worker.offer page = number +:+ "% OFF") ∨
    (∃ verb number,
       Page.search Page.percent_word_at text = None ∧
       Page.search Page.verb_percent_at text = Some (verb, number) ∧
       (Page.toLowerCase verb = "save" ∨ Page.toLowerCase verb = "get") ∧
       Worker.offer page = verb +:+ "% OFF") ∨
    (Page.search Page.percent_word_at text = None ∧
     Page.search Page.verb_percent_at text = None ∧
     Worker.offer page
     = if Page.nonempty (Worker.originalPrice page)
          && Page.nonempty (Worker.price page)
       then "SPECIAL OFFER" else "ON SALE"))).
Proof.
  intros page text. subst text page. unfold Page.scrapeProductPage.
  cbn [Worker.bodyText Worker.offer Worker.originalPrice Worker.price].
  set (text := Page.clean_body (Page.sel_body sel)).
  destruct (Page.has_offer_word (Page.toLowerCase text)); [right|by left].
  split; [done|].
  destruct (Page.search Page.percent_word_at text) as [[number word]|] eqn:H1.
  - left. exists number, word. split; [done|].
    destruct (search_found _ _ _ H1) as [t Ht].
    pose proof (percent_word_at_number _ _ _ Ht) as Hn. split; [done|].
    unfold Page.or_text. destruct Hn as [Hn _].
    apply nonempty_true in Hn. by rewrite Hn.
  - right.
    destruct (Page.search Page.verb_percent_at text) as [[verb number]|] eqn:H2.
    + left. exists verb, number. split; [done|]. split; [done|].
      destruct (search_found _ _ _ H2) as [t Ht].
      pose proof (verb_percent_at_verb _ _ _ Ht) as Hv. split; [done|].
      unfold Page.or_text. rewrite toLowerCase_nonempty; [done|].
      by destruct Hv as [-> | ->].
    + by right.
Qed.

Lemma append_nil_r (s : string) : s +:+ "" = s.
Proof.
  induction s as [|c s IH]; [done|].
  change (String c (s +:+ "") = String c s). by rewrite IH.
Qed.

Lemma holds_app (x p y : string) :
  (∃ front back, p = front +:+ x +:+ back) →
  ∃ front back, p +:+ y = front +:+ x +:+ back.
Proof.
  intros (front & back & ->). exists front, (back +:+ y).
  by rewrite !append_assoc.
Qed.

Lemma holds_if (x p q : string) (b : bool) :
  (∃ front back, p = front +:+ x +:+ back) →
  (∃ front back, q = front +:+ x +:+ back) →
  ∃ front back, (if b then p else q) = front +:+ x +:+ back.
Proof. by destruct b. Qed.

Lemma named_page_gets_the_overlay (pageContent : Worker.PageContent) :
  Page.nonempty (Worker.productName pageContent) = true →
  ∃ front back,
    Page.buildImagePrompt pageContent
    = front +:+ name_overlay (Worker.productName pageContent) +:+ back.
Proof.
  intros Hname. unfold name_overlay. prompt_stages pageContent.
  assert (H5 : ∃ front back,
             prompt5
             = front
               +:+ ("Display the product name " +:+ Page.dq
                    +:+ Worker.productName pageContent +:+ Page.dq
                    +:+ " prominently at the top center of the image in large, bold, white text with a dark semi-transparent background for readability. ")
               +:+ back).
  { exists prompt4, "". unfold prompt5. by rewrite Hname, append_nil_r. }
  clearbody prompt5.
  unfold prompt12, prompt11, prompt10, prompt9, prompt8, prompt7, prompt6.
  repeat first [exact H5 | apply holds_app | apply holds_if].
Qed.

(** X26.  The prompt built from a scraped page always asks for the product
    name on the image: the overlay sentence with the scraped name (or
    "Product") is part of it, for every page. *)
Theorem scraped_page_prompt_shows_the_name
  (url : option Value) (sel : Page.Selection) :
  ∃ front back,
    Page.buildImagePrompt (Page.scrapeProductPage url sel)
    = front
      +:+ name_overlay (Worker.productName (Page.scrapeProductPage url sel))
      +:+ back.
Proof.
  apply named_page_gets_the_overlay, nonempty_true.
  unfold Page.scrapeProductPage. cbn [Worker.productName].
  by apply or_text_default.
Qed.
